(** * Anyscale Academy, "Advanced Ray" notebooks: driver code of the cells

    The notebooks [advanced-ray/01-Ray-Tasks-Revisited.ipynb] and
    [advanced-ray/solutions/Advanced-Ray-Solutions.ipynb] are Python driver
    scripts around the Ray framework.  The code cells are embedded here as
    programs of a small state-and-exception monad.  The state ([World])
    holds what a cell can observe or change outside of its own variables:
    the framework, the notebook directory and the sequence of calls that
    left the notebook.  Ray itself is not part of the repository: the one
    call whose answer the driver code branches on, [ray.wait], is a
    parameter of the development. *)

From stdpp Require Import base list strings gmap.
From Stdlib Require Import ZArith QArith Lia.

Local Open Scope Z_scope.
Local Open Scope nat_scope.

(** ** Python exceptions and outcomes of a cell *)

Inductive Exn : Type :=
  | ValueError
  | IndexError
  | FileNotFoundError
  | AssertionError
  | OverflowError.

(** A cell returns a value, raises, or (in the model only) exhausts the
    iteration budget given to its [while] loop. *)
Inductive Result (A : Type) : Type :=
  | Ok (a : A)
  | Raise (e : Exn)
  | OutOfFuel.
Arguments Ok {A} a.
Arguments Raise {A} e.
Arguments OutOfFuel {A}.

(** ** Calls that leave the notebook *)

(** Object ids are logged by their serial number. *)
Inductive Call : Type :=
  | RayRemote (task : string) (id : nat)
  | RayWait (ids : list nat) (num_returns : nat) (timeout : option Q)
  | RayGet (ids : list nat)
  | RayTimeline (filename : string)
  | Print (template : string)
  | Pd (prefix : string)
  | TimeTime
  | TimeSleep (secs : Z)
  | OsPathIsfile (path : string)
  | OsRemove (path : string).

(** Calls into the public API of the framework. *)
Definition is_framework_call (c : Call) : bool :=
  match c with
  | RayRemote _ _ | RayWait _ _ _ | RayGet _ | RayTimeline _ => true
  | _ => false
  end.

(** Printing helpers. *)
Definition is_display_call (c : Call) : bool :=
  match c with
  | Print _ | Pd _ => true
  | _ => false
  end.

Definition calls_framework (log : list Call) : bool :=
  existsb is_framework_call log.

(** The object ids handed to [ray.get], in call order. *)
Fixpoint got_ids (log : list Call) : list nat :=
  match log with
  | [] => []
  | RayGet ids :: log' => ids ++ got_ids log'
  | _ :: log' => got_ids log'
  end.

(** The largest number of whole seconds whose count of nanoseconds fits a
    signed 64-bit integer: [(2**63 - 1) // 10**9]. *)
Definition sleep_max : Z := 9223372036.

(** ** Object ids (futures) *)

(** An object id is a handle on the result of a submitted task: it has an
    identity and the value the task resolves to, which [ray.get] returns. *)
Record ObjectID (V : Type) : Type := mkObjectID {
  serial : nat;
  result : V
}.
Arguments mkObjectID {V} serial result.
Arguments serial {V} o.
Arguments result {V} o.

Section Driver.

(** [R] is the state of the framework (scheduler, workers, clock), opaque
    to the notebooks; [V] the type of task results. *)
Context {R V : Type}.

(** [ray.wait(ids, num_returns, timeout)]: which ids are reported ready,
    which remain, in which order.  Decided by the framework. *)
Variable wait_oracle :
  R → list (ObjectID V) → nat → option Q →
  list (ObjectID V) * list (ObjectID V) * R.

Record World : Type := mkWorld {
  ray : R;
  next_id : nat;
  files : gset string;
  calls : list Call
}.

Definition M (A : Type) : Type := World → World * Result A.

#[export] Instance M_ret : MRet M := λ A a w, (w, Ok a).
#[export] Instance M_bind : MBind M := λ A B k m w,
  match m w with
  | (w', Ok a) => k a w'
  | (w', Raise e) => (w', Raise e)
  | (w', OutOfFuel) => (w', OutOfFuel)
  end.

Definition raise {A} (e : Exn) : M A := λ w, (w, Raise e).
Definition out_of_fuel {A} : M A := λ w, (w, OutOfFuel).

Definition call (c : Call) : M unit := λ w,
  (mkWorld (ray w) (next_id w) (files w) (calls w ++ [c]), Ok ()).

(** *** The framework API used by the cells *)

(** [task.remote(...)]: a fresh object id for a task that resolves to [v]. *)
Definition remote (task : string) (v : V) : M (ObjectID V) := λ w,
  let o := mkObjectID (next_id w) v in
  (mkWorld (ray w) (S (next_id w)) (files w)
           (calls w ++ [RayRemote task (next_id w)]), Ok o).

(** The answer of the framework to a well-formed [ray.wait]. *)
Definition framework_wait (ids : list (ObjectID V)) (num_returns : nat)
    (timeout : option Q) : M (list (ObjectID V) * list (ObjectID V)) := λ w,
  let '(ready_ids, remaining_ids, r) :=
    wait_oracle (ray w) ids num_returns timeout in
  (mkWorld r (next_id w) (files w) (calls w), Ok (ready_ids, remaining_ids)).

(** [ray.wait]: asking for more items than the list holds is an error
    (markdown cell after the [num_returns = 2] loop); otherwise the
    framework answers. *)
Definition ray_wait (ids : list (ObjectID V)) (num_returns : nat)
    (timeout : option Q) : M (list (ObjectID V) * list (ObjectID V)) :=
  call (RayWait (serial <$> ids) num_returns timeout);;
  if decide (length ids < num_returns) then raise ValueError
  else framework_wait ids num_returns timeout.

(** [ray.get(ids)]: the values of the tasks, in the order of [ids]. *)
Definition ray_get (ids : list (ObjectID V)) : M (list V) :=
  call (RayGet (serial <$> ids));; mret (result <$> ids).

(** [print(...)] and [pd(...)] of [util.printing]: the text printed is
    identified by its template. *)
Definition print (template : string) : M unit := call (Print template).
Definition pd (prefix : string) : M unit := call (Pd prefix).

(** [time.time()]: the call is recorded, the clock is not represented (its
    readings are only printed). *)
Definition time_time : M unit := call TimeTime.

(** [time.sleep(secs)] on an integer.  CPython converts the seconds to a
    signed 64-bit count of nanoseconds and raises [OverflowError] when they
    do not fit; it then rejects a negative duration with [ValueError];
    otherwise the call is recorded.  What the operating system makes of a
    sleep of centuries is not represented. *)
Definition time_sleep (secs : Z) : M unit :=
  if decide (sleep_max < Z.abs secs)%Z then raise OverflowError
  else if decide (secs < 0)%Z then raise ValueError
  else call (TimeSleep secs).

(** [for x in xs: body(x)] *)
Fixpoint for_each {A} (xs : list A) (body : A → M unit) : M unit :=
  match xs with
  | [] => mret ()
  | x :: xs' => body x;; for_each xs' body
  end.

(** *** The [ray.wait] loops of lesson 01 *)

(** [return_n = 2 if len(waiting_ids) > 1 else 1] *)
Definition return_n (waiting_ids : list (ObjectID V)) : nat :=
  if decide (1 < length waiting_ids) then 2 else 1.

(** The loop of the cells "Using ray.wait() with ray.get()", from
    [while len(waiting_ids) > 0:] on.  The cells differ in the
    [num_returns] and [timeout] arguments only. *)
Fixpoint arrays_wait_loop (fuel : nat)
    (num_returns : list (ObjectID V) → nat) (timeout : option Q)
    (waiting_ids : list (ObjectID V)) (arrays : list V) : M (list V) :=
  if decide (0 < length waiting_ids) then
    match fuel with
    | 0 => out_of_fuel
    | S fuel' =>
      '(ready_ids, remaining_ids) ←
        ray_wait waiting_ids (num_returns waiting_ids) timeout;
      time_time;;
      print "Returned {:3d} completed tasks. (elapsed time: {:6.3f})";;
      new_arrays ← ray_get ready_ids;
      let arrays := arrays ++ new_arrays in
      for_each new_arrays (λ _, print "{array.size}: {array}");;
      arrays_wait_loop fuel' num_returns timeout remaining_ids arrays
    end
  else mret arrays.

(** A [ray.wait] cell from [arrays = []] on:
    [waiting_ids = list(added_array_ids); while ...; print; pd].  The ids
    are those of the tasks submitted by the first lines of the cell. *)
Definition arrays_wait_cell (fuel : nat)
    (num_returns : list (ObjectID V) → nat) (timeout : option Q)
    (added_array_ids : list (ObjectID V)) : M (list V) :=
  arrays ← arrays_wait_loop fuel num_returns timeout added_array_ids [];
  print "\nall arrays: {arrays}";;
  time_time;; pd "Total time:";;
  mret arrays.

(** The loop of the solution of Exercise 3: [ray.wait] with its default
    arguments ([num_returns=1], no timeout), no printing. *)
Fixpoint squares_wait_loop (fuel : nat)
    (waiting_ids : list (ObjectID V)) (squares : list V) : M (list V) :=
  if decide (0 < length waiting_ids) then
    match fuel with
    | 0 => out_of_fuel
    | S fuel' =>
      '(finished_ids, waiting_ids) ← ray_wait waiting_ids 1 None;
      new_squares ← ray_get finished_ids;
      squares_wait_loop fuel' waiting_ids (squares ++ new_squares)
    end
  else mret squares.

(** [num_returns=1, timeout=10.0] *)
Definition wait_one_cell fuel := arrays_wait_cell fuel (λ _, 1) (Some 10%Q).
(** [num_returns=return_n, timeout=10.0] (also the cell of Exercise 1) *)
Definition wait_two_cell fuel := arrays_wait_cell fuel return_n (Some 10%Q).
(** [num_returns=return_n, timeout=2.5] (solution of Exercise 1) *)
Definition wait_two_short_cell fuel :=
  arrays_wait_cell fuel return_n (Some (5 # 2)%Q).

(** *** Local cells of lesson 01 *)

(** [l[i]] for an index that is never negative. *)
Definition index {A} (l : list A) (i : nat) : M A :=
  match l !! i with
  | Some x => mret x
  | None => raise IndexError
  end.

(** [range(n)] *)
Definition range (n : nat) : list Z := Z.of_nat <$> seq 0 n.

(** [def slow_square(n): time.sleep(n); return n*n] *)
Definition slow_square (n : Z) : M Z :=
  time_sleep n;; mret (n * n)%Z.

(** Exercise 3 as given in lesson 01: the sequential loop. *)
Definition exercise3_cell : M (list Z) :=
  time_time;;
  squares ← mapM slow_square (range 4);
  for_each squares (λ _, print "finished: {square}");;
  time_time;;
  mret squares.

(** [assert squares == [0, 1, 4, 9]] *)
Definition assert_squares (squares : list Z) : M unit :=
  if decide (squares = [0; 1; 4; 9]%Z) then mret ()
  else raise AssertionError.

(** [def noop(n): return n] *)
Definition noop (n : Z) : Z := n.

Definition trials : nat := 100.

(** The baseline cell [[noop(t) for t in range(trials)]]; the list it
    builds is returned here, the notebook drops it. *)
Definition noop_cell : M (list Z) :=
  time_time;;
  let baseline := noop <$> range trials in
  time_time;;
  print "{time.time() - start} seconds";;
  mret baseline.

(** [ns = [i*(10**j) for j in range(2,5) for i in [1,2,3,5,8]]] *)
Definition ns : list Z :=
  j ← [2; 3; 4]%Z; i ← [1; 2; 3; 5; 8]%Z; [(i * 10 ^ j)%Z].

(** [while i < len(ns) and local_durations[i] < remote_durations[i]: i=i+1] *)
Fixpoint crossing_loop (fuel : nat) (ns : list Z)
    (local_durations remote_durations : list Q) (i : nat) : M nat :=
  continue ←
    (if decide (i < length ns) then
       l ← index local_durations i;
       r ← index remote_durations i;
       mret (if Qlt_le_dec l r then true else false)
     else mret false);
  if continue : bool then
    match fuel with
    | 0 => out_of_fuel
    | S fuel' =>
      crossing_loop fuel' ns local_durations remote_durations (i + 1)
    end
  else mret i.

(** The crossing-point cell; it returns what it prints. *)
Definition crossing_cell (ns : list Z)
    (local_durations remote_durations : list Q) : M (Z * Q * Q) :=
  i ← crossing_loop (length ns) ns local_durations remote_durations 0;
  n ← index ns i;
  l ← index local_durations i;
  r ← index remote_durations i;
  print "The Ray times are faster starting at n = {:d}, local = {:6.3f} vs. remote = {:6.3f}";;
  mret (n, l, r).

(** *** The profiling cells *)

Definition get_files : M (gset string) := λ w, (w, Ok (files w)).
Definition put_files (fs : gset string) : M unit := λ w,
  (mkWorld (ray w) (next_id w) fs (calls w), Ok ()).

(** [os.path.isfile(path)] *)
Definition os_path_isfile (path : string) : M bool :=
  call (OsPathIsfile path);;
  fs ← get_files;
  mret (bool_decide (path ∈ fs)).

(** [os.remove(path)]: a missing file is an error. *)
Definition os_remove (path : string) : M unit :=
  call (OsRemove path);;
  fs ← get_files;
  if decide (path ∈ fs) then put_files (fs ∖ {[path]})
  else raise FileNotFoundError.

(** [ray.timeline(filename)] dumps the profiling events to the file
    ("captures profiling information ... to the specified file"). *)
Definition ray_timeline (filename : string) : M unit :=
  call (RayTimeline filename);;
  fs ← get_files;
  put_files ({[filename]} ∪ fs).

Definition timeline_file : string := "task-timeline.txt".

(** [if os.path.isfile(timeline_file): os.remove(timeline_file)] *)
Definition timeline_cleanup_cell : M unit :=
  exists_already ← os_path_isfile timeline_file;
  if exists_already : bool then os_remove timeline_file else mret ().

End Driver.

(** ** The solution cells of Exercise 3 (task results are integers) *)

Section Exercise3.

Context {R : Type}.
Variable wait_oracle :
  R → list (ObjectID Z) → nat → option Q →
  list (ObjectID Z) * list (ObjectID Z) * R.

(** [@ray.remote def slow_square(n)], invoked as [slow_square.remote(n)]:
    the body runs in a worker, the object resolves to what it returns.
    The cells submit [range(4)], durations that the [time.sleep] of the
    worker accepts.  A task whose body raises, which [ray.get] would
    report as a [RayTaskError], does not occur in them and is not
    represented: an object id always resolves. *)
Definition slow_square_remote (n : Z) : M (R := R) (ObjectID Z) :=
  remote "slow_square" (n * n)%Z.

(** First solution: [squares = ray.get(ids)]. *)
Definition exercise3_get_cell : M (R := R) (list Z) :=
  time_time;;
  ids ← mapM slow_square_remote (range 4);
  squares ← ray_get ids;
  time_time;;
  mret squares.

(** Second solution: the [ray.wait] loop. *)
Definition exercise3_wait_cell (fuel : nat) : M (R := R) (list Z) :=
  time_time;;
  ids ← mapM slow_square_remote (range 4);
  squares ← squares_wait_loop wait_oracle fuel ids [];
  time_time;;
  mret squares.

End Exercise3.

(** ** What the notebooks expect of [ray.wait] *)

Section WaitContracts.

Context {R V : Type}.
Variable wait_oracle :
  R → list (ObjectID V) → nat → option Q →
  list (ObjectID V) * list (ObjectID V) * R.

(** The two lists returned split the list passed in. *)
Definition wait_partitions : Prop :=
  ∀ r ids n t,
    (wait_oracle r ids n t).1.1 ++ (wait_oracle r ids n t).1.2 ≡ₚ ids.

(** A call on a non-empty list reports at least one id (no time-out
    with nothing ready). *)
Definition wait_progresses : Prop :=
  ∀ r ids n t,
    0 < length ids → 0 < n → 0 < length (wait_oracle r ids n t).1.1.

(** Ids are reported in the order of submission. *)
Definition wait_in_order : Prop :=
  ∀ r ids n t,
    (wait_oracle r ids n t).1.1 ++ (wait_oracle r ids n t).1.2 = ids.


End WaitContracts.

(** The calls made since [w], in a later world [w']. *)
Definition new_calls {R} (w w' : World (R := R)) : list Call :=
  drop (length (calls w)) (calls w').

(** Every id of [ids] went through [ray.get] once between [w] and [w'],
    and [results] are the values obtained, in that order. *)
Definition retrieved_once {R V} (ids : list (ObjectID V))
    (w w' : World (R := R)) (results : list V) : Prop :=
  ∃ got : list (ObjectID V),
    got ≡ₚ ids ∧
    got_ids (new_calls w w') = serial <$> got ∧
    results = result <$> got.

(** ** Two schedules, for examples *)

(** The first [num_returns] ids of the list are ready: tasks finish in
    the order of submission. *)
Definition submission_order {V} (r : unit) (ids : list (ObjectID V))
    (num_returns : nat) (timeout : option Q) :
    list (ObjectID V) * list (ObjectID V) * unit :=
  (take num_returns ids, drop num_returns ids, r).

(** The last [num_returns] ids of the list are ready, latest first. *)
Definition latest_first {V} (r : unit) (ids : list (ObjectID V))
    (num_returns : nat) (timeout : option Q) :
    list (ObjectID V) * list (ObjectID V) * unit :=
  (take num_returns (reverse ids),
   reverse (drop num_returns (reverse ids)), r).

(** A fresh session in an empty directory. *)
Definition fresh : World (R := unit) := mkWorld () 0 ∅ [].


(** ** Notions used to state the properties *)

(** The cell followed by the first assertion of the check cell. *)
Definition checked {R} (cell : M (R := R) (list Z)) : M (R := R) unit :=
  squares ← cell; assert_squares squares.

(** Every run of the cell calls the API of the framework. *)
Definition calls_into_framework {R A} (cell : M (R := R) A) : Prop :=
  ∀ w, calls_framework (new_calls w (cell w).1) = true.

(** No run of the cell calls the API of the framework. *)
Definition local_cell {R A} (cell : M (R := R) A) : Prop :=
  ∀ w, calls_framework (new_calls w (cell w).1) = false.

(** No run of the cell prints. *)
Definition silent_cell {R A} (cell : M (R := R) A) : Prop :=
  ∀ w, existsb is_display_call (new_calls w (cell w).1) = false.



(** ** Further readings of the call log *)

(** The [num_returns] of the [ray.wait] calls, in call order. *)
Fixpoint wait_requests (log : list Call) : list nat :=
  match log with
  | [] => []
  | RayWait _ n _ :: log' => n :: wait_requests log'
  | _ :: log' => wait_requests log'
  end.

(** The object ids passed to [ray.wait], in call order. *)
Fixpoint waited_ids (log : list Call) : list nat :=
  match log with
  | [] => []
  | RayWait ids _ _ :: log' => ids ++ waited_ids log'
  | _ :: log' => waited_ids log'
  end.

(** The seconds the notebook itself sleeps, in call order. *)
Fixpoint slept (log : list Call) : list Z :=
  match log with
  | [] => []
  | TimeSleep secs :: log' => secs :: slept log'
  | _ :: log' => slept log'
  end.

(** How many times the text of [template] was printed. *)
Fixpoint printed (template : string) (log : list Call) : nat :=
  match log with
  | [] => 0
  | Print s :: log' =>
    (if decide (s = template) then 1 else 0) + printed template log'
  | _ :: log' => printed template log'
  end.

(** No id handed to [ray.get] is passed to a later [ray.wait]. *)
Fixpoint never_rewaited (log : list Call) : Prop :=
  match log with
  | [] => True
  | RayGet ids :: log' =>
    (∀ x, x ∈ ids → x ∉ waited_ids log') ∧ never_rewaited log'
  | _ :: log' => never_rewaited log'
  end.

(** ** Further behaviours of [ray.wait] *)

Section WaitBehaviours.

Context {R V : Type}.
Variable wait_oracle :
  R → list (ObjectID V) → nat → option Q →
  list (ObjectID V) * list (ObjectID V) * R.

(** Every call times out with nothing ready. *)
Definition wait_stalls : Prop :=
  ∀ r ids n t, (wait_oracle r ids n t).1 = ([], ids).

(** Every call reports as many ids as it was asked for. *)
Definition wait_exact : Prop :=
  ∀ r ids n t, n ≤ length ids → length (wait_oracle r ids n t).1.1 = n.

End WaitBehaviours.

(** A framework whose tasks never finish. *)
Definition stalled {V} (r : unit) (ids : list (ObjectID V))
    (num_returns : nat) (timeout : option Q) :
    list (ObjectID V) * list (ObjectID V) * unit :=
  ([], ids, r).

(** ** The cells on NumPy arrays *)

Section ArrayCells.

(** [V] is the type of NumPy arrays.  [standard_normal] is
    [np.random.standard_normal(n)], drawn when the task is submitted;
    [np_add] is [np.add]. *)
Context {R V : Type}.
Variable wait_oracle :
  R → list (ObjectID V) → nat → option Q →
  list (ObjectID V) * list (ObjectID V) * R.
Variable standard_normal : R → Z → V * R.
Variable np_add : V → V → V.

(** The arrays drawn for a list of sizes, one after the other. *)
Fixpoint draws (r : R) (sizes : list Z) : list V * R :=
  match sizes with
  | [] => ([], r)
  | n :: sizes' =>
    let '(a, r1) := standard_normal r n in
    let '(l, r2) := draws r1 sizes' in
    (a :: l, r2)
  end.

Definition draw (n : Z) : M (R := R) V := λ w,
  let '(a, r) := standard_normal (ray w) n in
  (mkWorld r (next_id w) (files w) (calls w), Ok a).

(** [@ray.remote def make_array(n)], invoked as [make_array.remote(n)]:
    the body sleeps in a worker, the object resolves to the array. *)
Definition make_array_remote (n : Z) : M (R := R) (ObjectID V) :=
  a ← draw n; remote "make_array" a.

(** [@ray.remote def add_arrays(a1, a2)], invoked on two object ids,
    which the framework resolves before the body runs. *)
Definition add_arrays_remote (id1 id2 : ObjectID V) : M (R := R) (ObjectID V) :=
  remote "add_arrays" (np_add (result id1) (result id2)).

(** [ray.get(id)] on a single object id. *)
Definition ray_get_one (id : ObjectID V) : M (R := R) V :=
  call (RayGet [serial id]);; mret (result id).

(** The cell "Ray Task Dependencies"; it returns the array it prints. *)
Definition dependencies_cell : M (R := R) V :=
  time_time;;
  id1 ← make_array_remote 20;
  id2 ← make_array_remote 20;
  id3 ← add_arrays_remote id1 id2;
  a ← ray_get_one id3;
  print "{ray.get(id3)}";;
  time_time;; pd "Total time:";;
  mret a.

(** The first lines of the cells on five arrays:
    [start = time.time()],
    [array_ids = [make_array.remote(n*10) for n in range(5)]],
    [added_array_ids = [add_arrays.remote(id, id) for id in array_ids]]. *)
Definition submit_arrays : M (R := R) (list (ObjectID V)) :=
  time_time;;
  array_ids ← mapM (λ n, make_array_remote (n * 10)%Z) (range 5);
  mapM (λ id, add_arrays_remote id id) array_ids.

(** The cell that fetches all five arrays with one [ray.get]. *)
Definition get_cell : M (R := R) (list V) :=
  added_array_ids ← submit_arrays;
  arrays ← ray_get added_array_ids;
  for_each arrays (λ _, print "{array.size}: {array}");;
  time_time;; pd "Total time:";;
  mret arrays.

(** A whole [ray.wait] cell. *)
Definition wait_cell (fuel : nat) (num_returns : list (ObjectID V) → nat)
    (timeout : option Q) : M (R := R) (list V) :=
  added_array_ids ← submit_arrays;
  arrays_wait_cell wait_oracle fuel num_returns timeout added_array_ids.

(** The cell that profiles: [ray.timeline(timeline_file)], then the same
    statements as [get_cell]. *)
Definition timeline_cell : M (R := R) (list V) :=
  ray_timeline timeline_file;; get_cell.

End ArrayCells.

(** A stand-in for NumPy, for examples: arrays are lists of numbers,
    every array drawn is all zeros, addition is pointwise. *)
Definition zeros (r : unit) (n : Z) : list Q * unit :=
  (replicate (Z.to_nat n) 0%Q, r).
Definition add_lists (a1 a2 : list Q) : list Q := zip_with Qplus a1 a2.

(** * Properties *)

(** ** The call log *)

Lemma got_ids_app (l1 l2 : list Call) :
  got_ids (l1 ++ l2) = got_ids l1 ++ got_ids l2.
Proof.
  induction l1 as [|c l1 IH]; [done|].
  destruct c; simpl; rewrite ?IH, ?app_assoc; done.
Qed.

Lemma got_ids_prints (s : string) (n : nat) :
  got_ids (replicate n (Print s)) = [].
Proof. induction n; done. Qed.

(** Unfolds the monad and the library calls of a cell applied to a world. *)
Ltac run_cell :=
  repeat (progress (unfold mbind, M_bind, mret, M_ret, ray_wait, framework_wait,
    ray_timeline, os_path_isfile, os_remove, get_files, put_files, remote,
    time_time, time_sleep, print, pd, ray_get, index, raise, out_of_fuel, call;
    simpl)).

Section LoopFacts.

Context {R V : Type}.
Variable wait_oracle :
  R → list (ObjectID V) → nat → option Q →
  list (ObjectID V) * list (ObjectID V) * R.

Abbreviation World := (World (R := R)).

Lemma for_each_call {A} (xs : list A) (c : Call) (w : World) :
  for_each xs
    (λ _ w0, (mkWorld (ray w0) (next_id w0) (files w0) (calls w0 ++ [c]), Ok ()))
    w =
  (mkWorld (ray w) (next_id w) (files w) (calls w ++ replicate (length xs) c),
   Ok ()).
Proof.
  revert w. induction xs as [|x xs IH]; intros w.
  - simpl. rewrite app_nil_r. by destruct w.
  - simpl. unfold mbind, M_bind. simpl. rewrite IH. simpl.
    by rewrite <- app_assoc.
Qed.

Lemma new_calls_app (w w' : World) (log : list Call) :
  calls w' = calls w ++ log → new_calls w w' = log.
Proof. intros Hcalls. unfold new_calls. by rewrite Hcalls, drop_app_length. Qed.

(** *** One iteration of the printing loop *)

Lemma arrays_wait_loop_done fuel nr t arrays (w : World) :
  arrays_wait_loop wait_oracle fuel nr t [] arrays w = (w, Ok arrays).
Proof. by destruct fuel. Qed.

Lemma arrays_wait_loop_fuel nr t waiting arrays (w : World) :
  0 < length waiting →
  arrays_wait_loop wait_oracle 0 nr t waiting arrays w = (w, OutOfFuel).
Proof.
  intros Hpos. simpl. by destruct (decide (0 < length waiting)) as [_|]; [|lia].
Qed.

Lemma arrays_wait_loop_raise fuel nr t waiting arrays (w : World) :
  0 < length waiting → length waiting < nr waiting →
  arrays_wait_loop wait_oracle (S fuel) nr t waiting arrays w =
  (mkWorld (ray w) (next_id w) (files w)
     (calls w ++ [RayWait (serial <$> waiting) (nr waiting) t]),
   Raise ValueError).
Proof.
  intros Hpos Hlt. simpl.
  destruct (decide (0 < length waiting)) as [_|]; [|lia].
  run_cell.
  by destruct (decide (length waiting < nr waiting)) as [_|]; [|lia].
Qed.

Lemma arrays_wait_loop_step fuel nr t waiting arrays (w : World) :
  0 < length waiting → nr waiting ≤ length waiting →
  arrays_wait_loop wait_oracle (S fuel) nr t waiting arrays w =
  let a := wait_oracle (ray w) waiting (nr waiting) t in
  arrays_wait_loop wait_oracle fuel nr t a.1.2 (arrays ++ (result <$> a.1.1))
    (mkWorld a.2 (next_id w) (files w)
       (calls w ++
        [RayWait (serial <$> waiting) (nr waiting) t; TimeTime;
         Print "Returned {:3d} completed tasks. (elapsed time: {:6.3f})";
         RayGet (serial <$> a.1.1)] ++
        replicate (length a.1.1) (Print "{array.size}: {array}"))).
Proof.
  intros Hpos Hle. simpl.
  destruct (decide (0 < length waiting)) as [_|]; [|lia].
  run_cell.
  destruct (decide (length waiting < nr waiting)) as [|_]; [lia|]. simpl.
  destruct (wait_oracle (ray w) waiting (nr waiting) t)
    as [[ready remaining] r]. simpl.
  rewrite for_each_call. simpl. rewrite length_fmap.
  by rewrite <- !app_assoc.
Qed.

(** What a run of the printing loop has done when it stops, however it
    stops: [got] went through [ray.get], [rest] is still waited for. *)
Lemma arrays_wait_loop_inv fuel nr t :
  wait_partitions wait_oracle →
  ∀ waiting arrays (w w' : World) out,
    arrays_wait_loop wait_oracle fuel nr t waiting arrays w = (w', out) →
    ∃ got rest log,
      got ++ rest ≡ₚ waiting ∧
      calls w' = calls w ++ log ∧
      got_ids log = serial <$> got ∧
      files w' = files w ∧
      match out with
      | Ok res => rest = [] ∧ res = arrays ++ (result <$> got)
      | Raise e => e = ValueError ∧ length rest < nr rest
      | OutOfFuel => 0 < length rest
      end.
Proof.
  intros Hpart.
  induction fuel as [|fuel IH]; intros waiting arrays w w' out Hrun.
  - destruct waiting as [|x xs].
    + rewrite arrays_wait_loop_done in Hrun. simplify_eq.
      exists [], [], []. rewrite !app_nil_r. done.
    + rewrite arrays_wait_loop_fuel in Hrun by (simpl; lia). simplify_eq.
      exists [], (x :: xs), []. rewrite !app_nil_r. simpl.
      split_and!; try done; lia.
  - destruct waiting as [|x xs].
    { rewrite arrays_wait_loop_done in Hrun. simplify_eq.
      exists [], [], []. rewrite !app_nil_r. done. }
    set (waiting := x :: xs) in *.
    assert (0 < length waiting) as Hpos by (simpl; lia).
    destruct (decide (length waiting < nr waiting)) as [Hlt|Hge].
    { rewrite arrays_wait_loop_raise in Hrun by done. simplify_eq.
      exists [], waiting, [RayWait (serial <$> waiting) (nr waiting) t]. done. }
    rewrite arrays_wait_loop_step in Hrun by lia. simpl in Hrun.
    specialize (Hpart (ray w) waiting (nr waiting) t).
    destruct (wait_oracle (ray w) waiting (nr waiting) t)
      as [[ready remaining] r].
    simpl in *.
    apply IH in Hrun as (got & rest & log & Hperm & Hcalls & Hgot & Hfiles & Hout).
    simpl in *.
    exists (ready ++ got), rest,
      ([RayWait (serial <$> waiting) (nr waiting) t; TimeTime;
        Print "Returned {:3d} completed tasks. (elapsed time: {:6.3f})";
        RayGet (serial <$> ready)]
       ++ replicate (length ready) (Print "{array.size}: {array}") ++ log).
    split_and!.
    + rewrite <- app_assoc, Hperm. done.
    + rewrite Hcalls. simpl. rewrite <- !app_assoc. done.
    + simpl. rewrite got_ids_app, got_ids_prints, Hgot, fmap_app. done.
    + done.
    + destruct out; [|done..]. destruct Hout as [-> ->].
      by rewrite fmap_app, app_assoc.
Qed.

(** A [num_returns] that stays within the list never makes the loop raise. *)
Lemma arrays_wait_loop_no_raise fuel nr t :
  (∀ l : list (ObjectID V), 0 < length l → nr l ≤ length l) →
  ∀ waiting arrays (w : World) e,
    (arrays_wait_loop wait_oracle fuel nr t waiting arrays w).2 ≠ Raise e.
Proof.
  intros Hnr. induction fuel as [|fuel IH]; intros waiting arrays w e.
  - destruct waiting; [by rewrite arrays_wait_loop_done|].
    by rewrite arrays_wait_loop_fuel by (simpl; lia).
  - destruct waiting as [|x xs]; [by rewrite arrays_wait_loop_done|].
    rewrite arrays_wait_loop_step by (try apply Hnr; simpl; lia).
    apply IH.
Qed.

(** With progress at every call the loop is over after at most one
    iteration per id. *)
Lemma arrays_wait_loop_total nr t :
  wait_partitions wait_oracle → wait_progresses wait_oracle →
  (∀ l : list (ObjectID V), 0 < length l → 0 < nr l ≤ length l) →
  ∀ fuel waiting arrays (w : World),
    length waiting ≤ fuel →
    ∃ w' res,
      arrays_wait_loop wait_oracle fuel nr t waiting arrays w = (w', Ok res).
Proof.
  intros Hpart Hprog Hnr.
  induction fuel as [|fuel IH]; intros waiting arrays w Hlen.
  - destruct waiting; [|simpl in Hlen; lia].
    rewrite arrays_wait_loop_done. eauto.
  - destruct waiting as [|x xs]; [rewrite arrays_wait_loop_done; eauto|].
    set (waiting := x :: xs) in *.
    assert (0 < length waiting) as Hpos by (simpl; lia).
    destruct (Hnr waiting Hpos) as [Hn1 Hn2].
    rewrite arrays_wait_loop_step by done. simpl.
    specialize (Hpart (ray w) waiting (nr waiting) t).
    specialize (Hprog (ray w) waiting (nr waiting) t Hpos Hn1).
    destruct (wait_oracle (ray w) waiting (nr waiting) t)
      as [[ready remaining] r].
    simpl in *. apply IH.
    apply Permutation_length in Hpart. rewrite length_app in Hpart.
    subst waiting. simpl in *. lia.
Qed.

(** The loop only appends to the call log, leaves the directory alone,
    and an iteration starts with the call of [ray.wait]. *)
Lemma arrays_wait_loop_frame fuel nr t :
  ∀ waiting arrays (w : World),
    files (arrays_wait_loop wait_oracle fuel nr t waiting arrays w).1
    = files w ∧
    ∃ log,
      calls (arrays_wait_loop wait_oracle fuel nr t waiting arrays w).1
      = calls w ++ log ∧
      (0 < fuel → 0 < length waiting →
       head log = Some (RayWait (serial <$> waiting) (nr waiting) t)).
Proof.
  induction fuel as [|fuel IH]; intros waiting arrays w.
  - destruct waiting as [|x xs].
    + rewrite arrays_wait_loop_done. split; [done|]. exists [].
      rewrite app_nil_r. split; [done|lia].
    + rewrite arrays_wait_loop_fuel by (simpl; lia). split; [done|].
      exists []. rewrite app_nil_r. split; [done|lia].
  - destruct waiting as [|x xs].
    { rewrite arrays_wait_loop_done. split; [done|]. exists [].
      rewrite app_nil_r. split; [done|simpl; lia]. }
    set (waiting := x :: xs) in *.
    assert (0 < length waiting) as Hpos by (simpl; lia).
    destruct (decide (length waiting < nr waiting)) as [Hlt|Hge].
    { rewrite arrays_wait_loop_raise by done. simpl. split; [done|]. eauto. }
    rewrite arrays_wait_loop_step by lia. simpl.
    destruct (wait_oracle (ray w) waiting (nr waiting) t)
      as [[ready remaining] r]. simpl.
    match goal with |- context [arrays_wait_loop _ _ _ _ ?l ?a ?w1] =>
      destruct (IH l a w1) as (Hfiles & log & Hlog & _) end.
    simpl in *. split; [done|].
    eexists. rewrite Hlog. rewrite <- app_assoc. split; [reflexivity|done].
Qed.

(** *** The loop of the Exercise 3 solution *)

Lemma squares_wait_loop_done fuel squares (w : World) :
  squares_wait_loop wait_oracle fuel [] squares w = (w, Ok squares).
Proof. by destruct fuel. Qed.

Lemma squares_wait_loop_fuel waiting squares (w : World) :
  0 < length waiting →
  squares_wait_loop wait_oracle 0 waiting squares w = (w, OutOfFuel).
Proof.
  intros Hpos. simpl. by destruct (decide (0 < length waiting)) as [_|]; [|lia].
Qed.

Lemma squares_wait_loop_step fuel waiting squares (w : World) :
  0 < length waiting →
  squares_wait_loop wait_oracle (S fuel) waiting squares w =
  let a := wait_oracle (ray w) waiting 1 None in
  squares_wait_loop wait_oracle fuel a.1.2 (squares ++ (result <$> a.1.1))
    (mkWorld a.2 (next_id w) (files w)
       (calls w ++
        [RayWait (serial <$> waiting) 1 None; RayGet (serial <$> a.1.1)])).
Proof.
  intros Hpos. simpl.
  destruct (decide (0 < length waiting)) as [_|]; [|lia].
  run_cell.
  destruct (decide (length waiting < 1)) as [|_]; [lia|]. simpl.
  destruct (wait_oracle (ray w) waiting 1 None) as [[ready remaining] r].
  simpl. by rewrite <- !app_assoc.
Qed.

(** The invariant of the loop, for any way [rel] in which the answers of
    [ray.wait] relate to the list passed in (a permutation of it, or the
    list itself). *)
Lemma squares_wait_loop_inv (rel : relation (list (ObjectID V)))
    `{!Equivalence rel} fuel :
  (∀ c a b, rel a b → rel (c ++ a) (c ++ b)) →
  (∀ r ids n t,
     rel ((wait_oracle r ids n t).1.1 ++ (wait_oracle r ids n t).1.2) ids) →
  ∀ waiting squares (w w' : World) out,
    squares_wait_loop wait_oracle fuel waiting squares w = (w', out) →
    ∃ got rest log,
      rel (got ++ rest) waiting ∧
      calls w' = calls w ++ log ∧
      got_ids log = serial <$> got ∧
      files w' = files w ∧
      match out with
      | Ok res => rest = [] ∧ res = squares ++ (result <$> got)
      | Raise _ => False
      | OutOfFuel => 0 < length rest
      end.
Proof.
  intros Happ Hpart.
  induction fuel as [|fuel IH]; intros waiting squares w w' out Hrun.
  - destruct waiting as [|x xs].
    + rewrite squares_wait_loop_done in Hrun. simplify_eq.
      exists [], [], []. rewrite !app_nil_r. done.
    + rewrite squares_wait_loop_fuel in Hrun by (simpl; lia). simplify_eq.
      exists [], (x :: xs), []. rewrite !app_nil_r. simpl.
      split_and!; try done; lia.
  - destruct waiting as [|x xs].
    { rewrite squares_wait_loop_done in Hrun. simplify_eq.
      exists [], [], []. rewrite !app_nil_r. done. }
    set (waiting := x :: xs) in *.
    rewrite squares_wait_loop_step in Hrun by (simpl; lia). simpl in Hrun.
    specialize (Hpart (ray w) waiting 1 None).
    destruct (wait_oracle (ray w) waiting 1 None) as [[ready remaining] r].
    simpl in *.
    apply IH in Hrun as (got & rest & log & Hrel & Hcalls & Hgot & Hfiles & Hout).
    simpl in *.
    exists (ready ++ got), rest,
      ([RayWait (serial <$> waiting) 1 None; RayGet (serial <$> ready)] ++ log).
    split_and!.
    + rewrite <- app_assoc. etrans; [apply Happ, Hrel | apply Hpart].
    + rewrite Hcalls. simpl. rewrite <- !app_assoc. done.
    + simpl. rewrite Hgot, fmap_app. done.
    + done.
    + destruct out; [|done..]. destruct Hout as [-> ->].
      by rewrite fmap_app, app_assoc.
Qed.

Lemma squares_wait_loop_total :
  wait_partitions wait_oracle → wait_progresses wait_oracle →
  ∀ fuel waiting squares (w : World),
    length waiting ≤ fuel →
    ∃ w' res,
      squares_wait_loop wait_oracle fuel waiting squares w = (w', Ok res).
Proof.
  intros Hpart Hprog.
  induction fuel as [|fuel IH]; intros waiting squares w Hlen.
  - destruct waiting; [|simpl in Hlen; lia].
    rewrite squares_wait_loop_done. eauto.
  - destruct waiting as [|x xs]; [rewrite squares_wait_loop_done; eauto|].
    set (waiting := x :: xs) in *.
    assert (0 < length waiting) as Hpos by (simpl; lia).
    rewrite squares_wait_loop_step by done. simpl.
    specialize (Hpart (ray w) waiting 1 None).
    specialize (Hprog (ray w) waiting 1 None Hpos ltac:(lia)).
    destruct (wait_oracle (ray w) waiting 1 None) as [[ready remaining] r].
    simpl in *. apply IH.
    apply Permutation_length in Hpart. rewrite length_app in Hpart.
    subst waiting. simpl in *. lia.
Qed.

Lemma squares_wait_loop_frame fuel :
  ∀ waiting squares (w : World),
    files (squares_wait_loop wait_oracle fuel waiting squares w).1 = files w ∧
    ∃ log,
      calls (squares_wait_loop wait_oracle fuel waiting squares w).1
      = calls w ++ log.
Proof.
  induction fuel as [|fuel IH]; intros waiting squares w.
  - destruct waiting as [|x xs].
    + rewrite squares_wait_loop_done. split; [done|]. exists [].
      by rewrite app_nil_r.
    + rewrite squares_wait_loop_fuel by (simpl; lia). split; [done|].
      exists []. by rewrite app_nil_r.
  - destruct waiting as [|x xs].
    { rewrite squares_wait_loop_done. split; [done|]. exists [].
      by rewrite app_nil_r. }
    rewrite squares_wait_loop_step by (simpl; lia). simpl.
    destruct (wait_oracle (ray w) (x :: xs) 1 None)
      as [[ready remaining] r]. simpl.
    match goal with |- context [squares_wait_loop _ _ ?l ?a ?w1] =>
      destruct (IH l a w1) as (Hfiles & log & Hlog) end.
    simpl in *. split; [done|].
    eexists. rewrite Hlog. rewrite <- app_assoc. reflexivity.
Qed.



(** The loop of the solution prints nothing, and an iteration starts with
    the call of [ray.wait]. *)
Lemma squares_wait_loop_calls fuel :
  ∀ waiting squares (w : World),
    ∃ log,
      calls (squares_wait_loop wait_oracle fuel waiting squares w).1
      = calls w ++ log ∧
      existsb is_display_call log = false ∧
      (0 < fuel → 0 < length waiting →
       head log = Some (RayWait (serial <$> waiting) 1 None)).
Proof.
  induction fuel as [|fuel IH]; intros waiting squares w.
  - exists []. rewrite app_nil_r. split; [|split; [done|lia]].
    destruct (decide (0 < length waiting)) as [Hpos|Hzero].
    + by rewrite squares_wait_loop_fuel.
    + assert (waiting = []) as ->
        by (destruct waiting; [done|simpl in Hzero; lia]).
      by rewrite squares_wait_loop_done.
  - destruct (decide (0 < length waiting)) as [Hpos|Hzero]; last first.
    { assert (waiting = []) as ->
        by (destruct waiting; [done|simpl in Hzero; lia]).
      exists []. rewrite app_nil_r, squares_wait_loop_done.
      split; [done|]. split; [done|]. simpl. lia. }
    rewrite squares_wait_loop_step by done. cbv zeta.
    destruct (wait_oracle (ray w) waiting 1 None) as [[ready remaining] r].
    cbn [fst snd].
    match goal with |- context [squares_wait_loop _ _ ?l ?a ?w1] =>
      destruct (IH l a w1) as (log & Hlog & Hquiet & _) end.
    cbn [calls] in Hlog.
    exists ([RayWait (serial <$> waiting) 1 None; RayGet (serial <$> ready)]
            ++ log).
    split; [by rewrite Hlog, <- app_assoc|]. split; [done|done].
Qed.

End LoopFacts.

(** ** The example schedules obey the contracts *)

Lemma submission_order_partitions {V} :
  wait_partitions (submission_order (V := V)).
Proof. intros r ids n t. simpl. by rewrite take_drop. Qed.



Lemma latest_first_partitions {V} :
  wait_partitions (latest_first (V := V)).
Proof.
  intros r ids n t. simpl.
  etrans; [apply Permutation_app_head, reverse_Permutation|].
  rewrite take_drop. apply reverse_Permutation.
Qed.

Lemma latest_first_progresses {V} :
  wait_progresses (latest_first (V := V)).
Proof.
  intros r ids n t Hids Hn. simpl. rewrite length_take, length_reverse. lia.
Qed.


(** ** The [ray.wait] loops *)

Lemma return_n_bounds {V} (waiting_ids : list (ObjectID V)) :
  0 < length waiting_ids →
  0 < return_n waiting_ids ≤ length waiting_ids.
Proof. intros Hpos. unfold return_n. case_decide; lia. Qed.

(** C2. In each [ray.wait] loop of the notebooks (the printing loop with
    any [num_returns] and [timeout], and the loop of the Exercise 3
    solution), if [ray.wait] returns two lists that together are a
    permutation of the list passed in, then at loop exit the ids that went
    through [ray.get] are a permutation [got] of the submitted ids (each one
    once, none dropped) and the accumulated list holds their results in that
    order.  If moreover every call reports some id, the loops with
    [num_returns = 1], with [return_n] and with the default arguments do
    exit, after at most one iteration per id. *)
Theorem wait_loops_get_each_id_once {R V}
    (wait_oracle : R → list (ObjectID V) → nat → option Q →
                   list (ObjectID V) * list (ObjectID V) * R)
    (ids : list (ObjectID V)) (w : World (R := R)) :
  wait_partitions wait_oracle →
  (∀ fuel nr t w' arrays,
     arrays_wait_loop wait_oracle fuel nr t ids [] w = (w', Ok arrays) →
     retrieved_once ids w w' arrays) ∧
  (∀ fuel w' squares,
     squares_wait_loop wait_oracle fuel ids [] w = (w', Ok squares) →
     retrieved_once ids w w' squares) ∧
  (wait_progresses wait_oracle →
   (∀ t, ∃ w' arrays,
      arrays_wait_loop wait_oracle (length ids) (λ _, 1) t ids [] w
      = (w', Ok arrays)) ∧
   (∀ t, ∃ w' arrays,
      arrays_wait_loop wait_oracle (length ids) return_n t ids [] w
      = (w', Ok arrays)) ∧
   (∃ w' squares,
      squares_wait_loop wait_oracle (length ids) ids [] w = (w', Ok squares))).
Proof.
  intros Hpart. split_and!.
  - intros fuel nr t w' arrays Hrun.
    apply arrays_wait_loop_inv in Hrun
      as (got & rest & log & Hperm & Hcalls & Hgot & _ & -> & ->); [|done].
    rewrite app_nil_r in Hperm.
    exists got. by rewrite (new_calls_app _ _ _ Hcalls).
  - intros fuel w' squares Hrun.
    apply (squares_wait_loop_inv _ (≡ₚ)) in Hrun
      as (got & rest & log & Hperm & Hcalls & Hgot & _ & -> & ->).
    + rewrite app_nil_r in Hperm.
      exists got. by rewrite (new_calls_app _ _ _ Hcalls).
    + intros c a b Hab. by rewrite Hab.
    + apply Hpart.
  - intros Hprog. split_and!.
    + intros t. apply arrays_wait_loop_total; try done. intros l Hl. lia.
    + intros t. apply arrays_wait_loop_total; try done. apply return_n_bounds.
    + by apply squares_wait_loop_total.
Qed.

(** Three tasks reported in submission order, two at a time. *)
Lemma wait_loops_get_each_id_once_example :
  let ids := [mkObjectID 0 10; mkObjectID 1 20; mkObjectID 2 30]%Z in
  wait_partitions (submission_order (V := Z)) ∧
  retrieved_once ids fresh
    (arrays_wait_loop submission_order 3 return_n (Some 10%Q) ids [] fresh).1
    [10; 20; 30]%Z.
Proof.
  intros ids. split; [exact submission_order_partitions|].
  apply (proj1 (wait_loops_get_each_id_once submission_order ids fresh
                  submission_order_partitions) 3 return_n (Some 10%Q)).
  by vm_compute.
Defined.

(** C3. In the [num_returns = 2] loops, whenever the guard
    [len(waiting_ids) > 0] holds, [return_n] is at least 1 and at most
    [len(waiting_ids)]; [ray.wait]'s error for a [num_returns] larger than
    the list is therefore never raised, whatever the framework answers and
    however long the loop runs. *)
Theorem return_n_within_waiting_ids :
  (∀ V (waiting_ids : list (ObjectID V)),
     0 < length waiting_ids →
     1 ≤ return_n waiting_ids ≤ length waiting_ids) ∧
  (∀ R V (wait_oracle : R → list (ObjectID V) → nat → option Q →
                        list (ObjectID V) * list (ObjectID V) * R)
     fuel timeout waiting_ids arrays (w : World (R := R)) e,
     (arrays_wait_loop wait_oracle fuel return_n timeout waiting_ids arrays w).2
     ≠ Raise e).
Proof.
  split.
  - intros V waiting_ids Hpos. apply return_n_bounds, Hpos.
  - intros R V wait_oracle fuel timeout waiting_ids arrays w e.
    apply arrays_wait_loop_no_raise. intros l Hl. by apply return_n_bounds.
Qed.

(** The solution of Exercise 1 on five tasks that finish in submission
    order: two, two, then one id per call. *)
Example wait_two_short_cell_run :
  let ids := (λ n, mkObjectID n (Z.of_nat n)) <$> seq 0 5 in
  (wait_two_short_cell submission_order 3 ids fresh).2
  = Ok [0; 1; 2; 3; 4]%Z ∧
  got_ids (calls (wait_two_short_cell submission_order 3 ids fresh).1)
  = [0; 1; 2; 3; 4].
Proof. split; reflexivity. Qed.

(** One id left: [return_n] is 1. *)
Lemma return_n_within_waiting_ids_example :
  let waiting_ids := [mkObjectID 4 40%Z] in
  0 < length waiting_ids ∧ 1 ≤ return_n waiting_ids ≤ length waiting_ids.
Proof.
  intros waiting_ids. split; [simpl; lia|].
  apply (proj1 return_n_within_waiting_ids Z waiting_ids). simpl. lia.
Defined.

(** ** Exercise 3 *)

Section Exercise3Facts.

Context {R : Type}.
Variable wait_oracle :
  R → list (ObjectID Z) → nat → option Q →
  list (ObjectID Z) * list (ObjectID Z) * R.

Abbreviation World := (World (R := R)).

Lemma exercise3_cell_run (w : World) :
  ∃ w', exercise3_cell w = (w', Ok [0; 1; 4; 9]%Z) ∧
        files w' = files w ∧
        calls_framework (new_calls w w') = false.
Proof.
  eexists. split; [unfold exercise3_cell, slow_square; run_cell; reflexivity|].
  split; [done|].
  erewrite new_calls_app; [|simpl; rewrite <- !app_assoc; reflexivity]. done.
Qed.

Lemma exercise3_get_cell_run (w : World) :
  ∃ w', exercise3_get_cell w = (w', Ok [0; 1; 4; 9]%Z) ∧
        files w' = files w ∧
        calls_framework (new_calls w w') = true.
Proof.
  eexists.
  split; [unfold exercise3_get_cell, slow_square_remote; run_cell; reflexivity|].
  split; [done|].
  erewrite new_calls_app; [|simpl; rewrite <- !app_assoc; reflexivity]. done.
Qed.


Lemma exercise3_wait_cell_total fuel (w : World) :
  wait_partitions wait_oracle → wait_progresses wait_oracle →
  4 ≤ fuel →
  ∃ w' squares, exercise3_wait_cell wait_oracle fuel w = (w', Ok squares).
Proof.
  intros Hpart Hprog Hfuel.
  unfold exercise3_wait_cell, slow_square_remote. run_cell.
  edestruct (squares_wait_loop_total wait_oracle Hpart Hprog fuel)
    as (w1 & res & ->); [|eauto]. simpl. lia.
Qed.

Lemma exercise3_wait_cell_frame fuel (w : World) :
  files (exercise3_wait_cell wait_oracle fuel w).1 = files w ∧
  calls_framework (new_calls w (exercise3_wait_cell wait_oracle fuel w).1)
  = true.
Proof.
  unfold exercise3_wait_cell, slow_square_remote. run_cell.
  match goal with |- context [squares_wait_loop _ _ ?l ?a ?w1] =>
    destruct (squares_wait_loop_frame wait_oracle fuel l a w1)
      as (Hfiles & log & Hlog);
    destruct (squares_wait_loop wait_oracle fuel l a w1) as [w2 out] end.
  simpl in *.
  assert (∃ log', calls (match out with
                         | Ok a => (mkWorld (ray w2) (next_id w2) (files w2)
                                      (calls w2 ++ [TimeTime]), Ok a)
                         | Raise e => (w2, Raise e)
                         | OutOfFuel => (w2, OutOfFuel)
                         end).1
                  = calls w ++ TimeTime :: RayRemote "slow_square" (next_id w)
                                :: log') as [log' Hlog'].
  { destruct out; simpl; rewrite Hlog, <- !app_assoc; simpl; eauto. }
  split; [by destruct out|].
  by rewrite (new_calls_app _ _ _ Hlog').
Qed.

Lemma wait_in_order_partitions :
  wait_in_order wait_oracle → wait_partitions wait_oracle.
Proof. intros Horder r ids n t. by rewrite Horder. Qed.

(** The cell around its loop: the four tasks submitted, the loop, the
    clock. *)
Lemma exercise3_wait_cell_eq fuel (w : World) :
  exercise3_wait_cell wait_oracle fuel w =
  match
    squares_wait_loop wait_oracle fuel
      [mkObjectID (next_id w) 0; mkObjectID (S (next_id w)) 1;
       mkObjectID (S (S (next_id w))) 4;
       mkObjectID (S (S (S (next_id w)))) 9]%Z []
      (mkWorld (ray w) (S (S (S (S (next_id w))))) (files w)
         (calls w ++ TimeTime :: (RayRemote "slow_square" <$> seq (next_id w) 4)))
  with
  | (w2, Ok squares) =>
    (mkWorld (ray w2) (next_id w2) (files w2) (calls w2 ++ [TimeTime]),
     Ok squares)
  | (w2, Raise e) => (w2, Raise e)
  | (w2, OutOfFuel) => (w2, OutOfFuel)
  end.
Proof.
  unfold exercise3_wait_cell, slow_square_remote. run_cell.
  rewrite <- !app_assoc. reflexivity.
Qed.


End Exercise3Facts.




(** The order of [squares] is the order of the reports of [ray.wait]:
    the assumption on the order in which the tasks finish cannot be
    dropped.  Were the latest task reported first, which tasks that sleep
    0, 1, 2 and 3 seconds do not bring about, the loop would collect
    [[9, 4, 1, 0]]. *)
Example exercise3_wait_latest_first :
  wait_partitions (latest_first (V := Z)) ∧
  wait_progresses (latest_first (V := Z)) ∧
  (exercise3_wait_cell latest_first 4 fresh).2 = Ok [9; 4; 1; 0]%Z ∧
  (checked (exercise3_wait_cell latest_first 4) fresh).2 = Raise AssertionError.
Proof.
  split; [exact latest_first_partitions|].
  split; [exact latest_first_progresses|].
  split; reflexivity.
Qed.

(** ** The crossing-point cell *)

Section CrossingFacts.
Context {R : Type}.
Abbreviation World := (World (R := R)).

Lemma crossing_loop_stop fuel ns local remote i (w : World) :
  length ns ≤ i →
  crossing_loop fuel ns local remote i w = (w, Ok i).
Proof.
  intros Hi. destruct fuel; simpl; run_cell;
    by destruct (decide (i < length ns)) as [|_]; [lia|].
Qed.

Lemma crossing_loop_found fuel ns local remote i l r (w : World) :
  i < length ns → local !! i = Some l → remote !! i = Some r → (r <= l)%Q →
  crossing_loop fuel ns local remote i w = (w, Ok i).
Proof.
  intros Hi Hl Hr Hle. destruct fuel; simpl; run_cell;
    (destruct (decide (i < length ns)) as [_|]; [|lia]);
    rewrite Hl; simpl; rewrite Hr; simpl;
    (destruct (Qlt_le_dec l r) as [Hlt|_]; [|done]);
    exfalso; eapply Qlt_not_le; eauto.
Qed.

Lemma crossing_loop_next fuel ns local remote i l r (w : World) :
  i < length ns → local !! i = Some l → remote !! i = Some r → (l < r)%Q →
  crossing_loop (S fuel) ns local remote i w =
  crossing_loop fuel ns local remote (i + 1) w.
Proof.
  intros Hi Hl Hr Hlt. simpl; run_cell.
  destruct (decide (i < length ns)) as [_|]; [|lia].
  rewrite Hl; simpl; rewrite Hr; simpl.
  destruct (Qlt_le_dec l r) as [_|Hle]; [done|].
  exfalso; eapply Qlt_not_le; eauto.
Qed.

Lemma crossing_loop_spec ns local remote :
  length local = length ns → length remote = length ns →
  ∀ fuel i (w : World),
    length ns - i ≤ fuel →
    ∃ j, crossing_loop fuel ns local remote i w = (w, Ok j) ∧
      i ≤ j ∧ (i ≤ length ns → j ≤ length ns) ∧
      (∀ k, i ≤ k < j →
         ∃ l r, local !! k = Some l ∧ remote !! k = Some r ∧ (l < r)%Q) ∧
      (j < length ns →
         ∃ l r, local !! j = Some l ∧ remote !! j = Some r ∧ (r <= l)%Q).
Proof.
  intros Hlocal Hremote.
  induction fuel as [|fuel IH]; intros i w Hfuel.
  - exists i. rewrite crossing_loop_stop by lia. split_and!; try done; lia.
  - destruct (decide (i < length ns)) as [Hi|Hi]; last first.
    { exists i. rewrite crossing_loop_stop by lia. split_and!; try done; lia. }
    destruct (lookup_lt_is_Some_2 local i) as [l Hl]; [lia|].
    destruct (lookup_lt_is_Some_2 remote i) as [r Hr]; [lia|].
    destruct (Qlt_le_dec l r) as [Hlt|Hle].
    + rewrite (crossing_loop_next _ _ _ _ _ l r) by done.
      destruct (IH (i + 1) w) as (j & -> & Hij & Hj & Hbelow & Hat); [lia|].
      exists j. split_and!; try done; try lia.
      intros k Hk. destruct (decide (k = i)) as [->|]; [eauto|].
      apply Hbelow. lia.
    + exists i. rewrite (crossing_loop_found _ _ _ _ _ l r) by done.
      split_and!; try done; try lia. eauto.
Qed.

(** C4. In the crossing-point cell, with one local and one remote duration
    per array size, the search loop ends at an index [i] without raising;
    the accesses [ns[i]], [local_durations[i]], [remote_durations[i]] that
    follow are in bounds if and only if some index [k < len(ns)] has
    [local_durations[k] >= remote_durations[k]], and then the cell prints
    these three values.  When local execution is faster at every array
    size, [i] is [len(ns)] and the cell raises [IndexError]. *)
Theorem crossing_point_lookup_in_bounds
    (ns : list Z) (local_durations remote_durations : list Q) (w : World) :
  length local_durations = length ns →
  length remote_durations = length ns →
  ∃ i,
    crossing_loop (length ns) ns local_durations remote_durations 0 w
    = (w, Ok i) ∧
    ((is_Some (ns !! i) ∧ is_Some (local_durations !! i) ∧
      is_Some (remote_durations !! i)) ↔
     (∃ k l r, k < length ns ∧ local_durations !! k = Some l ∧
               remote_durations !! k = Some r ∧ (r <= l)%Q)) ∧
    (∀ n l r,
       ns !! i = Some n → local_durations !! i = Some l →
       remote_durations !! i = Some r →
       (crossing_cell ns local_durations remote_durations w).2 = Ok (n, l, r)) ∧
    ((∀ k l r, local_durations !! k = Some l →
               remote_durations !! k = Some r → (l < r)%Q) →
     i = length ns ∧
     (crossing_cell ns local_durations remote_durations w).2
     = Raise IndexError).
Proof.
  intros Hlocal Hremote.
  destruct (crossing_loop_spec ns local_durations remote_durations
              Hlocal Hremote (length ns) 0 w)
    as (i & Hloop & _ & Hi & Hbelow & Hat); [lia|].
  specialize (Hi ltac:(lia)).
  exists i. split_and!; [done|..].
  - split.
    + intros (Hn & _ & _). apply lookup_lt_is_Some_1 in Hn.
      destruct (Hat Hn) as (l & r & ? & ? & ?). exists i, l, r. done.
    + intros (k & l & r & Hk & Hl & Hr & Hle).
      assert (i < length ns) as Hlt.
      { destruct (decide (i < length ns)) as [|Hge]; [done|].
        destruct (Hbelow k) as (l' & r' & Hl' & Hr' & Hlt); [lia|].
        simplify_eq. exfalso. eapply Qlt_not_le; eauto. }
      split_and!; apply lookup_lt_is_Some_2; lia.
  - intros n l r Hn Hl Hr. unfold crossing_cell.
    unfold mbind at 1, M_bind at 1. rewrite Hloop. run_cell.
    rewrite Hn. simpl. rewrite Hl. simpl. rewrite Hr. done.
  - intros Hall.
    assert (i = length ns) as ->.
    { destruct (decide (i < length ns)) as [Hlt|]; [|lia].
      destruct (Hat Hlt) as (l & r & Hl & Hr & Hle).
      exfalso. eapply Qlt_not_le; eauto. }
    split; [done|]. unfold crossing_cell.
    unfold mbind at 1, M_bind at 1. rewrite Hloop. run_cell.
    by rewrite lookup_ge_None_2.
Qed.
End CrossingFacts.

(** Measurements that cross at the second size. *)
Lemma crossing_point_lookup_in_bounds_example :
  let ns := [100; 200; 300]%Z in
  let local_durations := [1; 5; 1]%Q in
  let remote_durations := [2; 3; 0]%Q in
  length local_durations = length ns ∧
  length remote_durations = length ns ∧
  ∃ i,
    crossing_loop (length ns) ns local_durations remote_durations 0 fresh
    = (fresh, Ok i) ∧ i = 1.
Proof.
  intros ns l r. split; [reflexivity|]. split; [reflexivity|].
  destruct (crossing_point_lookup_in_bounds ns l r fresh eq_refl eq_refl)
    as (i & Hi & _).
  exists i. split; [done|]. vm_compute in Hi. congruence.
Defined.

Example ns_values :
  ns = [100; 200; 300; 500; 800; 1000; 2000; 3000; 5000; 8000;
        10000; 20000; 30000; 50000; 80000]%Z.
Proof. reflexivity. Qed.

(** Local execution faster at each of the fifteen sizes of the lesson. *)
Example crossing_point_all_local_faster :
  (crossing_cell ns (replicate 15 1%Q) (replicate 15 2%Q) fresh).2
  = Raise IndexError.
Proof. reflexivity. Qed.

(** ** Which cells reach the framework, which touch the directory *)

Section CellFrames.

Context {R : Type}.

Abbreviation World := (World (R := R)).

Lemma calls_framework_head (c : Call) (log : list Call) :
  is_framework_call c = true → calls_framework (c :: log) = true.
Proof. intros Hc. unfold calls_framework. simpl. by rewrite Hc. Qed.

(** The search loop makes no call and changes nothing. *)
Lemma crossing_loop_world fuel ns local remote :
  ∀ i (w : World), (crossing_loop fuel ns local remote i w).1 = w.
Proof.
  induction fuel as [|fuel IH]; intros i w; simpl; run_cell.
  - destruct (decide (i < length ns)); simpl; [|done].
    destruct (local !! i); simpl; [|done].
    destruct (remote !! i); simpl; [|done].
    by destruct (Qlt_le_dec _ _).
  - destruct (decide (i < length ns)); simpl; [|done].
    destruct (local !! i); simpl; [|done].
    destruct (remote !! i); simpl; [|done].
    destruct (Qlt_le_dec _ _); [apply IH|done].
Qed.

Lemma crossing_cell_frame ns local remote (w : World) :
  files (crossing_cell ns local remote w).1 = files w ∧
  calls_framework (new_calls w (crossing_cell ns local remote w).1) = false ∧
  forallb is_display_call (new_calls w (crossing_cell ns local remote w).1)
  = true.
Proof.
  assert (new_calls w w = []) as Hnone.
  { by rewrite (new_calls_app w w []) by by rewrite app_nil_r. }
  remember (crossing_cell ns local remote w) as res eqn:Hres.
  unfold crossing_cell in Hres. unfold mbind at 1, M_bind at 1 in Hres.
  pose proof (crossing_loop_world (length ns) ns local remote 0 w) as Hw.
  destruct (crossing_loop (length ns) ns local remote 0 w) as [w1 out].
  simpl in Hw. subst w1.
  destruct out as [i| |]; [|subst res; simpl; by rewrite Hnone..].
  revert Hres. run_cell.
  destruct (ns !! i); simpl; [|intros ->; simpl; by rewrite Hnone].
  destruct (local !! i); simpl; [|intros ->; simpl; by rewrite Hnone].
  destruct (remote !! i); simpl; [|intros ->; simpl; by rewrite Hnone].
  intros ->. split; [done|]. simpl.
  erewrite new_calls_app; [|simpl; reflexivity]. done.
Qed.

Lemma noop_cell_run (w : World) :
  ∃ w', noop_cell w = (w', Ok (range trials)) ∧
        files w' = files w ∧
        calls_framework (new_calls w w') = false.
Proof.
  eexists. split; [|split].
  - unfold noop_cell. run_cell. reflexivity.
  - done.
  - erewrite new_calls_app; [|simpl; rewrite <- !app_assoc; reflexivity]. done.
Qed.

Lemma timeline_cleanup_cell_run (w : World) :
  ∃ w', timeline_cleanup_cell w = (w', Ok ()) ∧
        files w' = files w ∖ {[timeline_file]} ∧
        calls_framework (new_calls w w') = false.
Proof.
  unfold timeline_cleanup_cell. run_cell.
  destruct (decide (timeline_file ∈ files w)) as [Hin|Hout].
  - rewrite bool_decide_eq_true_2 by done. run_cell.
    rewrite decide_True by done.
    eexists. split; [reflexivity|]. split; [done|].
    erewrite new_calls_app; [|simpl; rewrite <- !app_assoc; reflexivity]. done.
  - rewrite bool_decide_eq_false_2 by done. run_cell.
    eexists. split; [reflexivity|]. split.
    { simpl. apply set_eq. intros f.
      rewrite elem_of_difference, elem_of_singleton.
      split; [|tauto]. intros Hf. split; [done|]. by intros ->. }
    erewrite new_calls_app; [|simpl; reflexivity]. done.
Qed.



Lemma arrays_wait_cell_frame {V}
    (wait_oracle : R → list (ObjectID V) → nat → option Q →
                   list (ObjectID V) * list (ObjectID V) * R)
    fuel nr t ids (w : World) :
  files (arrays_wait_cell wait_oracle fuel nr t ids w).1 = files w ∧
  (0 < fuel → 0 < length ids →
   calls_framework
     (new_calls w (arrays_wait_cell wait_oracle fuel nr t ids w).1) = true).
Proof.
  remember (arrays_wait_cell wait_oracle fuel nr t ids w) as res eqn:Hres.
  unfold arrays_wait_cell in Hres. unfold mbind at 1, M_bind at 1 in Hres.
  destruct (arrays_wait_loop_frame wait_oracle fuel nr t ids [] w)
    as (Hfiles & log & Hlog & Hhead).
  destruct (arrays_wait_loop wait_oracle fuel nr t ids [] w) as [w1 out].
  simpl in *. split.
  - destruct out; revert Hres; run_cell; by intros ->.
  - intros Hfuel Hids. specialize (Hhead Hfuel Hids).
    destruct log as [|c log]; [done|]. simpl in Hhead. injection Hhead as ->.
    destruct out; revert Hres; run_cell; intros ->; simpl.
    + erewrite new_calls_app;
        [|simpl; rewrite Hlog, <- !app_assoc; simpl; reflexivity].
      by apply calls_framework_head.
    + erewrite new_calls_app; [|exact Hlog]. by apply calls_framework_head.
    + erewrite new_calls_app; [|exact Hlog]. by apply calls_framework_head.
Qed.

End CellFrames.

(** ** Guards against errors *)




(** Five ids, always two at a time: the third call raises. *)
Example wait_two_without_return_n :
  let ids := (λ n, mkObjectID n (Z.of_nat n)) <$> seq 0 5 in
  (arrays_wait_loop submission_order 5 (λ _, 2) (Some 10%Q) ids [] fresh).2
  = Raise ValueError ∧
  (arrays_wait_loop submission_order 5 return_n (Some 10%Q) ids [] fresh).2
  = Ok [0; 1; 2; 3; 4]%Z.
Proof. split; reflexivity. Qed.

(** ** The timeline file *)



(** * Further properties *)

(** ** More on the call log *)

Lemma wait_requests_app (l1 l2 : list Call) :
  wait_requests (l1 ++ l2) = wait_requests l1 ++ wait_requests l2.
Proof.
  induction l1 as [|c l1 IH]; [done|]. destruct c; simpl; by rewrite ?IH.
Qed.

Lemma waited_ids_app (l1 l2 : list Call) :
  waited_ids (l1 ++ l2) = waited_ids l1 ++ waited_ids l2.
Proof.
  induction l1 as [|c l1 IH]; [done|].
  destruct c; simpl; rewrite ?IH, ?app_assoc; done.
Qed.

Lemma slept_app (l1 l2 : list Call) :
  slept (l1 ++ l2) = slept l1 ++ slept l2.
Proof.
  induction l1 as [|c l1 IH]; [done|]. destruct c; simpl; by rewrite ?IH.
Qed.

Lemma wait_requests_prints (s : string) (n : nat) :
  wait_requests (replicate n (Print s)) = [].
Proof. induction n; done. Qed.

Lemma waited_ids_prints (s : string) (n : nat) :
  waited_ids (replicate n (Print s)) = [].
Proof. induction n; done. Qed.

Lemma never_rewaited_prints (s : string) (n : nat) (log : list Call) :
  never_rewaited (replicate n (Print s) ++ log) ↔ never_rewaited log.
Proof. induction n; done. Qed.

(** ** Tasks that never finish *)

Section StallFacts.

Context {R V : Type}.
Variable wait_oracle :
  R → list (ObjectID V) → nat → option Q →
  list (ObjectID V) * list (ObjectID V) * R.

Abbreviation World := (World (R := R)).

Lemma arrays_wait_loop_stalls fuel nr t waiting arrays (w : World) :
  wait_stalls wait_oracle →
  0 < length waiting → nr waiting ≤ length waiting →
  ∃ w' log,
    arrays_wait_loop wait_oracle fuel nr t waiting arrays w = (w', OutOfFuel) ∧
    calls w' = calls w ++ log ∧
    got_ids log = [] ∧
    wait_requests log = replicate fuel (nr waiting).
Proof.
  intros Hstall Hpos Hnr. revert w.
  induction fuel as [|fuel IH]; intros w.
  - rewrite arrays_wait_loop_fuel by done. exists w, [].
    by rewrite app_nil_r.
  - rewrite arrays_wait_loop_step by done. simpl.
    specialize (Hstall (ray w) waiting (nr waiting) t).
    destruct (wait_oracle (ray w) waiting (nr waiting) t)
      as [[ready remaining] r]. simpl in *. simplify_eq.
    rewrite app_nil_r. simpl.
    match goal with |- context [arrays_wait_loop _ _ _ _ _ _ ?w1] =>
      destruct (IH w1) as (w' & log & -> & Hcalls & Hgot & Hreq) end.
    simpl in Hcalls. eexists w', _. split; [done|].
    split; [rewrite Hcalls, <- app_assoc; reflexivity|].
    simpl. by rewrite Hgot, Hreq.
Qed.

Lemma squares_wait_loop_stalls fuel waiting squares (w : World) :
  wait_stalls wait_oracle →
  0 < length waiting →
  ∃ w' log,
    squares_wait_loop wait_oracle fuel waiting squares w = (w', OutOfFuel) ∧
    calls w' = calls w ++ log ∧
    got_ids log = [] ∧
    wait_requests log = replicate fuel 1.
Proof.
  intros Hstall Hpos. revert w.
  induction fuel as [|fuel IH]; intros w.
  - rewrite squares_wait_loop_fuel by done. exists w, [].
    by rewrite app_nil_r.
  - rewrite squares_wait_loop_step by done. simpl.
    specialize (Hstall (ray w) waiting 1 None).
    destruct (wait_oracle (ray w) waiting 1 None)
      as [[ready remaining] r]. simpl in *. simplify_eq.
    rewrite app_nil_r. simpl.
    match goal with |- context [squares_wait_loop _ _ _ _ ?w1] =>
      destruct (IH w1) as (w' & log & -> & Hcalls & Hgot & Hreq) end.
    simpl in Hcalls. eexists w', _. split; [done|].
    split; [rewrite Hcalls, <- app_assoc; reflexivity|].
    simpl. by rewrite Hgot, Hreq.
Qed.

End StallFacts.

(** X1. When every [ray.wait] call times out with nothing ready, the
    [ray.wait] loops never exit: after any number of iterations on a
    non-empty list of ids the loop is still running, it has called
    [ray.wait] once per iteration and no id has gone through [ray.get].
    The time-out bounds one call, not the loop. *)
Theorem wait_loops_spin_on_stalled_tasks {R V}
    (wait_oracle : R → list (ObjectID V) → nat → option Q →
                   list (ObjectID V) * list (ObjectID V) * R)
    (ids : list (ObjectID V)) (w : World (R := R)) (fuel : nat) :
  wait_stalls wait_oracle →
  0 < length ids →
  (∀ nr t, nr ids ≤ length ids →
     let run := arrays_wait_loop wait_oracle fuel nr t ids [] w in
     run.2 = OutOfFuel ∧
     got_ids (new_calls w run.1) = [] ∧
     wait_requests (new_calls w run.1) = replicate fuel (nr ids)) ∧
  (let run := squares_wait_loop wait_oracle fuel ids [] w in
   run.2 = OutOfFuel ∧
   got_ids (new_calls w run.1) = [] ∧
   wait_requests (new_calls w run.1) = replicate fuel 1).
Proof.
  intros Hstall Hpos. split.
  - intros nr t Hnr.
    destruct (arrays_wait_loop_stalls wait_oracle fuel nr t ids [] w)
      as (w' & log & Hrun & Hcalls & Hgot & Hreq); [done..|].
    simpl. rewrite Hrun. simpl. by rewrite (new_calls_app _ _ _ Hcalls).
  - destruct (squares_wait_loop_stalls wait_oracle fuel ids [] w)
      as (w' & log & Hrun & Hcalls & Hgot & Hreq); [done..|].
    simpl. rewrite Hrun. simpl. by rewrite (new_calls_app _ _ _ Hcalls).
Qed.

Lemma stalled_stalls {V} : wait_stalls (stalled (V := V)).
Proof. by intros r ids n t. Qed.

(** Two tasks that never finish, seven iterations. *)
Lemma wait_loops_spin_on_stalled_tasks_example :
  let ids := [mkObjectID 0 10%Z; mkObjectID 1 20%Z] in
  wait_stalls (stalled (V := Z)) ∧ 0 < length ids ∧
  (arrays_wait_loop stalled 7 return_n (Some (5 # 2)%Q) ids [] fresh).2
  = OutOfFuel.
Proof.
  intros ids.
  assert (0 < length ids) as Hpos by (unfold ids; simpl; lia).
  split; [exact stalled_stalls|]. split; [exact Hpos|].
  apply (proj1 (wait_loops_spin_on_stalled_tasks stalled ids fresh 7
                  stalled_stalls Hpos) return_n (Some (5 # 2)%Q)).
  apply (return_n_bounds ids Hpos).
Defined.

(** ** Completed ids leave the waiting list *)

Section RewaitFacts.

Context {R V : Type}.
Variable wait_oracle :
  R → list (ObjectID V) → nat → option Q →
  list (ObjectID V) * list (ObjectID V) * R.

Abbreviation World := (World (R := R)).

Lemma wait_answer_subset (waiting ready remaining : list (ObjectID V)) :
  ready ++ remaining ≡ₚ waiting →
  ∀ x, x ∈ serial <$> remaining → x ∈ serial <$> waiting.
Proof.
  intros Hperm x Hx. rewrite <- Hperm, fmap_app, elem_of_app. by right.
Qed.

(** What one answer of [ray.wait] on ids without duplicates gives. *)
Lemma wait_answer_disjoint (waiting ready remaining : list (ObjectID V)) :
  ready ++ remaining ≡ₚ waiting →
  NoDup (serial <$> waiting) →
  NoDup (serial <$> remaining) ∧
  (∀ x, x ∈ serial <$> ready → x ∉ serial <$> remaining).
Proof.
  intros Hperm Hnodup.
  rewrite <- Hperm, fmap_app in Hnodup.
  by apply NoDup_app in Hnodup as (_ & Hdisj & Hrem).
Qed.

Lemma waited_ids_iteration sw n t s g k s' (log : list Call) :
  waited_ids ([RayWait sw n t; TimeTime; Print s; RayGet g] ++
              replicate k (Print s') ++ log)
  = sw ++ waited_ids log.
Proof. simpl. by rewrite waited_ids_app, waited_ids_prints. Qed.

Lemma never_rewaited_iteration sw n t s g k s' (log : list Call) :
  never_rewaited ([RayWait sw n t; TimeTime; Print s; RayGet g] ++
                  replicate k (Print s') ++ log)
  ↔ (∀ x, x ∈ g → x ∉ waited_ids log) ∧ never_rewaited log.
Proof.
  simpl. by rewrite waited_ids_app, waited_ids_prints, never_rewaited_prints.
Qed.

Lemma arrays_wait_loop_waits fuel nr t :
  wait_partitions wait_oracle →
  ∀ waiting arrays (w : World),
    ∃ log,
      calls (arrays_wait_loop wait_oracle fuel nr t waiting arrays w).1
      = calls w ++ log ∧
      (∀ x, x ∈ waited_ids log → x ∈ serial <$> waiting) ∧
      (NoDup (serial <$> waiting) → never_rewaited log).
Proof.
  intros Hpart.
  induction fuel as [|fuel IH]; intros waiting arrays w.
  - exists []. rewrite app_nil_r. split; [|by split; [intros x Hx; inversion Hx|]].
    destruct waiting; [by rewrite arrays_wait_loop_done|].
    by rewrite arrays_wait_loop_fuel by (simpl; lia).
  - destruct (decide (0 < length waiting)) as [Hpos|Hzero]; last first.
    { assert (waiting = []) as ->
        by (destruct waiting; [done|simpl in Hzero; lia]).
      exists []. rewrite app_nil_r, arrays_wait_loop_done.
      by split; [|split; [intros y Hy; inversion Hy|]]. }
    destruct (decide (length waiting < nr waiting)) as [Hlt|Hge].
    { rewrite arrays_wait_loop_raise by done.
      exists [RayWait (serial <$> waiting) (nr waiting) t].
      split; [done|]. split; [|done].
      intros y. simpl. by rewrite app_nil_r. }
    rewrite arrays_wait_loop_step by lia. cbv zeta.
    specialize (Hpart (ray w) waiting (nr waiting) t).
    destruct (wait_oracle (ray w) waiting (nr waiting) t)
      as [[ready remaining] r].
    cbn [fst snd] in *.
    match goal with |- context [arrays_wait_loop _ _ _ _ ?l ?a ?w1] =>
      destruct (IH l a w1) as (log & Hlog & Hsub & Hnever) end.
    cbn [calls] in Hlog.
    exists ([RayWait (serial <$> waiting) (nr waiting) t; TimeTime;
             Print "Returned {:3d} completed tasks. (elapsed time: {:6.3f})";
             RayGet (serial <$> ready)] ++
            replicate (length ready) (Print "{array.size}: {array}") ++ log).
    split; [rewrite Hlog, <- !app_assoc; reflexivity|].
    rewrite waited_ids_iteration, never_rewaited_iteration. split.
    + intros y. rewrite elem_of_app. intros [Hy|Hy]; [done|].
      apply Hsub in Hy. by eapply wait_answer_subset.
    + intros Hnodup.
      destruct (wait_answer_disjoint waiting ready remaining Hpart Hnodup)
        as (Hrem & Hdisj).
      split; [|by apply Hnever].
      intros y Hy Hwaited. apply (Hdisj y Hy). by apply Hsub.
Qed.

Lemma squares_wait_loop_waits fuel :
  wait_partitions wait_oracle →
  ∀ waiting squares (w : World),
    ∃ log,
      calls (squares_wait_loop wait_oracle fuel waiting squares w).1
      = calls w ++ log ∧
      (∀ x, x ∈ waited_ids log → x ∈ serial <$> waiting) ∧
      (NoDup (serial <$> waiting) → never_rewaited log).
Proof.
  intros Hpart.
  induction fuel as [|fuel IH]; intros waiting squares w.
  - exists []. rewrite app_nil_r. split; [|by split; [intros x Hx; inversion Hx|]].
    destruct waiting; [by rewrite squares_wait_loop_done|].
    by rewrite squares_wait_loop_fuel by (simpl; lia).
  - destruct (decide (0 < length waiting)) as [Hpos|Hzero]; last first.
    { assert (waiting = []) as ->
        by (destruct waiting; [done|simpl in Hzero; lia]).
      exists []. rewrite app_nil_r, squares_wait_loop_done.
      by split; [|split; [intros y Hy; inversion Hy|]]. }
    rewrite squares_wait_loop_step by done. cbv zeta.
    specialize (Hpart (ray w) waiting 1 None).
    destruct (wait_oracle (ray w) waiting 1 None)
      as [[ready remaining] r].
    cbn [fst snd] in *.
    match goal with |- context [squares_wait_loop _ _ ?l ?a ?w1] =>
      destruct (IH l a w1) as (log & Hlog & Hsub & Hnever) end.
    cbn [calls] in Hlog.
    exists ([RayWait (serial <$> waiting) 1 None;
             RayGet (serial <$> ready)] ++ log).
    split; [rewrite Hlog, <- app_assoc; reflexivity|].
    change (never_rewaited ([RayWait (serial <$> waiting) 1 None;
                             RayGet (serial <$> ready)] ++ log))
      with ((∀ y, y ∈ serial <$> ready → y ∉ waited_ids log) ∧
            never_rewaited log).
    change (waited_ids ([RayWait (serial <$> waiting) 1 None;
                         RayGet (serial <$> ready)] ++ log))
      with ((serial <$> waiting) ++ waited_ids log).
    split.
    + intros y. rewrite elem_of_app. intros [Hy|Hy]; [done|].
      apply Hsub in Hy. by eapply wait_answer_subset.
    + intros Hnodup.
      destruct (wait_answer_disjoint waiting ready remaining Hpart Hnodup)
        as (Hrem & Hdisj).
      split; [|by apply Hnever].
      intros y Hy Hwaited. apply (Hdisj y Hy). by apply Hsub.
Qed.

End RewaitFacts.

(** X2. In the [ray.wait] loops, if [ray.wait] splits the list it is given
    and the submitted ids are distinct, an id that has been handed to
    [ray.get] is never passed to [ray.wait] again, and [ray.wait] is only
    ever called on submitted ids.  This holds at any point of the run,
    whether the loop has exited or not. *)
Theorem wait_loops_never_wait_again {R V}
    (wait_oracle : R → list (ObjectID V) → nat → option Q →
                   list (ObjectID V) * list (ObjectID V) * R)
    (ids : list (ObjectID V)) (w : World (R := R)) :
  wait_partitions wait_oracle →
  NoDup (serial <$> ids) →
  (∀ fuel nr t,
     let log :=
       new_calls w (arrays_wait_loop wait_oracle fuel nr t ids [] w).1 in
     never_rewaited log ∧
     ∀ x, x ∈ waited_ids log → x ∈ serial <$> ids) ∧
  (∀ fuel,
     let log := new_calls w (squares_wait_loop wait_oracle fuel ids [] w).1 in
     never_rewaited log ∧
     ∀ x, x ∈ waited_ids log → x ∈ serial <$> ids).
Proof.
  intros Hpart Hnodup. split.
  - intros fuel nr t.
    destruct (arrays_wait_loop_waits wait_oracle fuel nr t Hpart ids [] w)
      as (log & Hlog & Hsub & Hnever).
    simpl. rewrite (new_calls_app _ _ _ Hlog). auto.
  - intros fuel.
    destruct (squares_wait_loop_waits wait_oracle fuel Hpart ids [] w)
      as (log & Hlog & Hsub & Hnever).
    simpl. rewrite (new_calls_app _ _ _ Hlog). auto.
Qed.

(** Three distinct ids, reported latest first. *)
Lemma wait_loops_never_wait_again_example :
  let ids := [mkObjectID 0 10%Z; mkObjectID 1 20%Z; mkObjectID 2 30%Z] in
  wait_partitions (latest_first (V := Z)) ∧
  NoDup (serial <$> ids) ∧
  never_rewaited
    (new_calls fresh (squares_wait_loop latest_first 3 ids [] fresh).1).
Proof.
  intros ids.
  assert (NoDup (serial <$> ids)) as Hnodup.
  { unfold ids. apply (bool_decide_unpack _). by compute. }
  split; [exact latest_first_partitions|]. split; [exact Hnodup|].
  apply (proj2 (wait_loops_never_wait_again latest_first ids fresh
                  latest_first_partitions Hnodup) 3).
Defined.

(** ** The cells on five arrays *)

Section ArrayFacts.

Context {R V : Type}.
Variable wait_oracle :
  R → list (ObjectID V) → nat → option Q →
  list (ObjectID V) * list (ObjectID V) * R.
Variable standard_normal : R → Z → V * R.
Variable np_add : V → V → V.

Abbreviation World := (World (R := R)).

(** The invariant of the printing loop for any relation between the
    answers of [ray.wait] and the list passed in. *)
Lemma arrays_wait_loop_inv_rel (rel : relation (list (ObjectID V)))
    `{!Equivalence rel} fuel nr t :
  (∀ c a b, rel a b → rel (c ++ a) (c ++ b)) →
  (∀ r ids n t,
     rel ((wait_oracle r ids n t).1.1 ++ (wait_oracle r ids n t).1.2) ids) →
  ∀ waiting arrays (w w' : World) res,
    arrays_wait_loop wait_oracle fuel nr t waiting arrays w = (w', Ok res) →
    ∃ got, rel got waiting ∧ res = arrays ++ (result <$> got).
Proof.
  intros Happ Hrel.
  induction fuel as [|fuel IH]; intros waiting arrays w w' res Hrun.
  - destruct (decide (0 < length waiting)) as [Hpos|Hzero].
    + by rewrite arrays_wait_loop_fuel in Hrun.
    + assert (waiting = []) as ->
        by (destruct waiting; [done|simpl in Hzero; lia]).
      rewrite arrays_wait_loop_done in Hrun. simplify_eq.
      exists []. by rewrite app_nil_r.
  - destruct (decide (0 < length waiting)) as [Hpos|Hzero]; last first.
    { assert (waiting = []) as ->
        by (destruct waiting; [done|simpl in Hzero; lia]).
      rewrite arrays_wait_loop_done in Hrun. simplify_eq.
      exists []. by rewrite app_nil_r. }
    destruct (decide (length waiting < nr waiting)) as [Hlt|Hge].
    { by rewrite arrays_wait_loop_raise in Hrun. }
    rewrite arrays_wait_loop_step in Hrun by lia. cbv zeta in Hrun.
    specialize (Hrel (ray w) waiting (nr waiting) t).
    destruct (wait_oracle (ray w) waiting (nr waiting) t)
      as [[ready remaining] r].
    cbn [fst snd] in *.
    apply IH in Hrun as (got & Hgot & ->).
    exists (ready ++ got). split.
    + etrans; [apply Happ, Hgot | apply Hrel].
    + by rewrite fmap_app, app_assoc.
Qed.

Lemma mapM_cons_run {A B} (f : A → M (R := R) B) x l (w : World) :
  mapM f (x :: l) w =
  match f x w with
  | (w1, Ok y) =>
    match mapM f l w1 with
    | (w2, Ok k) => (w2, Ok (y :: k))
    | (w2, Raise e) => (w2, Raise e)
    | (w2, OutOfFuel) => (w2, OutOfFuel)
    end
  | (w1, Raise e) => (w1, Raise e)
  | (w1, OutOfFuel) => (w1, OutOfFuel)
  end.
Proof.
  simpl. unfold mbind, M_bind. destruct (f x w) as [w1 [y| |]]; [|done..].
  by destruct (mapM f l w1) as [w2 [k| |]].
Qed.

Lemma make_array_remote_run (n : Z) (w : World) :
  make_array_remote standard_normal n w =
  (mkWorld (standard_normal (ray w) n).2 (S (next_id w)) (files w)
     (calls w ++ [RayRemote "make_array" (next_id w)]),
   Ok (mkObjectID (next_id w) (standard_normal (ray w) n).1)).
Proof.
  unfold make_array_remote, draw. run_cell.
  by destruct (standard_normal (ray w) n).
Qed.

Lemma add_arrays_remote_run (id1 id2 : ObjectID V) (w : World) :
  add_arrays_remote np_add id1 id2 w =
  (mkWorld (ray w) (S (next_id w)) (files w)
     (calls w ++ [RayRemote "add_arrays" (next_id w)]),
   Ok (mkObjectID (next_id w) (np_add (result id1) (result id2)))).
Proof. done. Qed.

(** Submitting [make_array] tasks: fresh consecutive ids. *)
Lemma mapM_make_array_remote {A} (size : A → Z) (xs : list A) :
  ∀ w : World,
    ∃ w1 ids,
      mapM (λ x, make_array_remote standard_normal (size x)) xs w
      = (w1, Ok ids) ∧
      serial <$> ids = seq (next_id w) (length xs) ∧
      result <$> ids = (draws standard_normal (ray w) (size <$> xs)).1 ∧
      next_id w1 = next_id w + length xs ∧
      files w1 = files w ∧
      calls w1
      = calls w ++ (RayRemote "make_array" <$> seq (next_id w) (length xs)).
Proof.
  induction xs as [|x xs IH]; intros w.
  - exists w, []. simpl. rewrite app_nil_r. split_and!; try done; lia.
  - rewrite mapM_cons_run, make_array_remote_run.
    match goal with |- context [mapM _ xs ?w2] =>
      destruct (IH w2)
        as (w1 & ids & -> & Hser & Hres & Hnext & Hfiles & Hcalls) end.
    cbn [ray next_id files calls] in *.
    eexists _, _. split; [reflexivity|].
    split_and!.
    + rewrite fmap_cons, Hser. reflexivity.
    + rewrite !fmap_cons, Hres. cbn [draws].
      destruct (standard_normal (ray w) (size x)) as [a r1]. cbn [fst snd].
      by destruct (draws standard_normal r1 (size <$> xs)).
    + simpl. lia.
    + done.
    + rewrite Hcalls, <- app_assoc. done.
Qed.

(** Submitting [add_arrays] tasks on the ids of earlier tasks. *)
Lemma mapM_add_arrays_remote (array_ids : list (ObjectID V)) :
  ∀ w : World,
    ∃ ids,
      mapM (λ id, add_arrays_remote np_add id id) array_ids w
      = (mkWorld (ray w) (next_id w + length array_ids) (files w)
           (calls w ++
            (RayRemote "add_arrays" <$> seq (next_id w) (length array_ids))),
         Ok ids) ∧
      serial <$> ids = seq (next_id w) (length array_ids) ∧
      result <$> ids
      = (λ id, np_add (result id) (result id)) <$> array_ids.
Proof.
  induction array_ids as [|id array_ids IH]; intros w.
  - exists []. simpl. rewrite app_nil_r, Nat.add_0_r. by destruct w.
  - rewrite mapM_cons_run, add_arrays_remote_run.
    match goal with |- context [mapM _ array_ids ?w2] =>
      destruct (IH w2) as (ids & -> & Hser & Hres) end.
    cbn [ray next_id files calls] in *.
    eexists. split; [|split].
    + rewrite <- app_assoc. simpl. do 3 f_equal. lia.
    + rewrite fmap_cons, Hser. reflexivity.
    + by rewrite !fmap_cons, Hres.
Qed.

(** The first lines of the cells submit ten tasks and keep the ids of the
    last five. *)
Lemma submit_arrays_run (w : World) :
  ∃ w1 added,
    submit_arrays standard_normal np_add w = (w1, Ok added) ∧
    serial <$> added = seq (next_id w + 5) 5 ∧
    result <$> added
    = (λ a, np_add a a) <$>
        (draws standard_normal (ray w) ((λ n, n * 10)%Z <$> range 5)).1 ∧
    files w1 = files w ∧
    calls w1
    = calls w ++ TimeTime ::
        (RayRemote "make_array" <$> seq (next_id w) 5) ++
        (RayRemote "add_arrays" <$> seq (next_id w + 5) 5).
Proof.
  unfold submit_arrays. unfold mbind at 1, M_bind at 1, time_time, call.
  unfold mbind at 1, M_bind at 1.
  match goal with |- context [mapM _ (range 5) ?w2] =>
    destruct (mapM_make_array_remote (λ n, n * 10)%Z (range 5) w2)
      as (w1 & array_ids & -> & Hser & Hres & Hnext & Hfiles & Hcalls) end.
  cbn [ray next_id files calls] in *.
  assert (length array_ids = 5) as Hlen.
  { by rewrite <- (length_fmap serial), Hser, length_seq. }
  destruct (mapM_add_arrays_remote array_ids w1)
    as (added & -> & Hadded & Hsum).
  eexists _, added. split; [reflexivity|]. cbn [files calls].
  rewrite Hadded, Hnext, Hlen, Hcalls, Hsum.
  change (length (range 5)) with 5.
  split_and!; [done| |done|by rewrite <- !app_assoc].
  by rewrite <- Hres, <- !list_fmap_compose.
Qed.

Lemma got_ids_remotes (task : string) (l : list nat) :
  got_ids (RayRemote task <$> l) = [].
Proof. induction l; done. Qed.

Lemma get_cell_run (w : World) :
  ∃ w1 added w',
    submit_arrays standard_normal np_add w = (w1, Ok added) ∧
    get_cell standard_normal np_add w = (w', Ok (result <$> added)) ∧
    result <$> added
    = (λ a, np_add a a) <$>
        (draws standard_normal (ray w) ((λ n, n * 10)%Z <$> range 5)).1 ∧
    serial <$> added = seq (next_id w + 5) 5 ∧
    files w' = files w ∧
    ∃ log, calls w' = calls w ++ log ∧
           got_ids log = seq (next_id w + 5) 5.
Proof.
  destruct (submit_arrays_run w)
    as (w1 & added & Hsub & Hser & Hres & Hfiles & Hcalls).
  exists w1, added. unfold get_cell. unfold mbind at 1, M_bind at 1.
  rewrite Hsub. run_cell. rewrite for_each_call. simpl.
  eexists. split; [done|]. split; [reflexivity|].
  split; [done|]. split; [done|]. split; [done|].
  exists
    ([TimeTime] ++ (RayRemote "make_array" <$> seq (next_id w) 5) ++
     (RayRemote "add_arrays" <$> seq (next_id w + 5) 5) ++
     [RayGet (serial <$> added)] ++
     replicate (length (result <$> added)) (Print "{array.size}: {array}") ++
     [TimeTime; Pd "Total time:"]).
  split.
  - simpl. rewrite Hcalls, <- !app_assoc. reflexivity.
  - rewrite !got_ids_app, !got_ids_remotes, got_ids_prints.
    cbn [got_ids app]. by rewrite !app_nil_r, Hser.
Qed.

(** A [ray.wait] cell that completes has run its loop to the exit. *)
Lemma arrays_wait_cell_ok fuel nr t ids (w w' : World) arrays :
  arrays_wait_cell wait_oracle fuel nr t ids w = (w', Ok arrays) →
  ∃ w2,
    arrays_wait_loop wait_oracle fuel nr t ids [] w = (w2, Ok arrays) ∧
    calls w'
    = calls w2 ++ [Print "\nall arrays: {arrays}"; TimeTime; Pd "Total time:"].
Proof.
  unfold arrays_wait_cell. unfold mbind at 1, M_bind at 1.
  destruct (arrays_wait_loop wait_oracle fuel nr t ids [] w) as [w2 [a| |]];
    [|done..].
  run_cell. intros [= <- <-]. exists w2. split; [done|].
  simpl. by rewrite <- !app_assoc.
Qed.

Lemma wait_cell_ok fuel nr t (w w' : World) arrays :
  wait_partitions wait_oracle →
  wait_cell wait_oracle standard_normal np_add fuel nr t w = (w', Ok arrays) →
  ∃ w1 added got,
    submit_arrays standard_normal np_add w = (w1, Ok added) ∧
    got ≡ₚ added ∧ arrays = result <$> got ∧
    got_ids (new_calls w w') = serial <$> got.
Proof.
  intros Hpart.
  destruct (submit_arrays_run w)
    as (w1 & added & Hsub & Hser & Hres & Hfiles & Hcalls).
  unfold wait_cell. unfold mbind at 1, M_bind at 1. rewrite Hsub.
  intros Hcell. apply arrays_wait_cell_ok in Hcell as (w2 & Hloop & Hcalls').
  apply arrays_wait_loop_inv in Hloop
    as (got & rest & log & Hperm & Hlog & Hgot & _ & -> & ->); [|done].
  rewrite app_nil_r in Hperm. exists w1, added, got.
  split; [done|]. split; [done|]. split; [done|].
  rewrite (new_calls_app _ _
    ([TimeTime] ++ (RayRemote "make_array" <$> seq (next_id w) 5) ++
     (RayRemote "add_arrays" <$> seq (next_id w + 5) 5) ++ log ++
     [Print "\nall arrays: {arrays}"; TimeTime; Pd "Total time:"])).
  - rewrite !got_ids_app, !got_ids_remotes, Hgot.
    cbn [got_ids app]. by rewrite !app_nil_r.
  - rewrite Hcalls', Hlog, Hcalls, <- !app_assoc. reflexivity.
Qed.

Lemma wait_cell_in_order fuel nr t (w w' : World) arrays :
  wait_in_order wait_oracle →
  wait_cell wait_oracle standard_normal np_add fuel nr t w = (w', Ok arrays) →
  ∃ w1 added,
    submit_arrays standard_normal np_add w = (w1, Ok added) ∧
    arrays = result <$> added.
Proof.
  intros Horder.
  destruct (submit_arrays_run w)
    as (w1 & added & Hsub & Hser & Hres & Hfiles & Hcalls).
  unfold wait_cell. unfold mbind at 1, M_bind at 1. rewrite Hsub.
  intros Hcell. apply arrays_wait_cell_ok in Hcell as (w2 & Hloop & _).
  apply (arrays_wait_loop_inv_rel eq) in Hloop as (got & -> & ->).
  - by exists w1, added.
  - by intros c a b ->.
  - apply Horder.
Qed.

Lemma dependencies_cell_run (w : World) :
  let d1 := standard_normal (ray w) 20%Z in
  let d2 := standard_normal d1.2 20%Z in
  ∃ w',
    dependencies_cell standard_normal np_add w
    = (w', Ok (np_add d1.1 d2.1)) ∧
    files w' = files w ∧
    new_calls w w'
    = [TimeTime; RayRemote "make_array" (next_id w);
       RayRemote "make_array" (S (next_id w));
       RayRemote "add_arrays" (S (S (next_id w)));
       RayGet [S (S (next_id w))]; Print "{ray.get(id3)}";
       TimeTime; Pd "Total time:"].
Proof.
  intros d1 d2. unfold dependencies_cell.
  unfold mbind at 1, M_bind at 1, time_time, call.
  unfold mbind at 1, M_bind at 1. rewrite make_array_remote_run.
  unfold mbind at 1, M_bind at 1. rewrite make_array_remote_run.
  unfold mbind at 1, M_bind at 1. rewrite add_arrays_remote_run.
  unfold ray_get_one. run_cell.
  eexists. split; [reflexivity|]. split; [done|].
  apply new_calls_app. simpl. by rewrite <- !app_assoc.
Qed.

Lemma ray_timeline_run (filename : string) (w : World) :
  ray_timeline filename w
  = (mkWorld (ray w) (next_id w) ({[filename]} ∪ files w)
       (calls w ++ [RayTimeline filename]), Ok ()).
Proof. done. Qed.

Lemma timeline_cell_run (w : World) :
  ∃ w' w0 arrays log,
    timeline_cell standard_normal np_add w = (w', Ok arrays) ∧
    get_cell standard_normal np_add w = (w0, Ok arrays) ∧
    files w0 = files w ∧
    files w' = {[timeline_file]} ∪ files w ∧
    calls w0 = calls w ++ log ∧
    got_ids (new_calls w w') = got_ids log.
Proof.
  destruct (get_cell_run w)
    as (w1 & added & w0 & _ & Hget & Hres & _ & Hfiles & log & Hlog & Hgot).
  set (wt := mkWorld (ray w) (next_id w) ({[timeline_file]} ∪ files w)
               (calls w ++ [RayTimeline timeline_file])).
  destruct (get_cell_run wt)
    as (w1t & addedt & w' & _ & Hgett & Hrest & _ & Hfilest
        & logt & Hlogt & Hgott).
  exists w', w0, (result <$> added), log. split_and!; try done.
  - unfold timeline_cell. unfold mbind at 1, M_bind at 1.
    rewrite ray_timeline_run. fold wt. by rewrite Hgett, Hrest, Hres.
  - rewrite (new_calls_app _ _ ([RayTimeline timeline_file] ++ logt)).
    + rewrite got_ids_app. simpl. by rewrite Hgott, Hgot.
    + rewrite Hlogt. simpl. by rewrite <- app_assoc.
Qed.

End ArrayFacts.

(** X3. Started in the same world, a [ray.wait] cell that completes ends
    with the arrays that the [ray.get] cell returns: as a permutation of
    them when [ray.wait] splits the list it is given, and then exactly the
    five ids of the [add_arrays] tasks went through [ray.get], each once;
    as the same list when [ray.wait] reports in submission order. *)
Theorem wait_cell_fetches_what_get_cell_fetches {R V}
    (wait_oracle : R → list (ObjectID V) → nat → option Q →
                   list (ObjectID V) * list (ObjectID V) * R)
    (standard_normal : R → Z → V * R) (np_add : V → V → V)
    (w : World (R := R)) :
  ∃ w0 arrays0,
    get_cell standard_normal np_add w = (w0, Ok arrays0) ∧
    (wait_partitions wait_oracle →
     ∀ fuel nr t w' arrays,
       wait_cell wait_oracle standard_normal np_add fuel nr t w
       = (w', Ok arrays) →
       arrays ≡ₚ arrays0 ∧
       got_ids (new_calls w w') ≡ₚ got_ids (new_calls w w0) ∧
       NoDup (got_ids (new_calls w w'))) ∧
    (wait_in_order wait_oracle →
     ∀ fuel nr t w' arrays,
       wait_cell wait_oracle standard_normal np_add fuel nr t w
       = (w', Ok arrays) →
       arrays = arrays0).
Proof.
  destruct (get_cell_run standard_normal np_add w)
    as (w1 & added & w0 & Hsub & Hget & _ & Hser & _ & log & Hlog & Hgot).
  rewrite <- (new_calls_app _ _ _ Hlog) in Hgot.
  exists w0, (result <$> added). split; [done|]. split.
  - intros Hpart fuel nr t w' arrays Hrun.
    apply wait_cell_ok in Hrun as (w1' & added' & got & Hsub' & Hperm & -> & ->);
      [|done].
    rewrite Hsub in Hsub'. simplify_eq. rewrite Hgot, <- Hser.
    split_and!.
    + by rewrite Hperm.
    + by rewrite Hperm.
    + rewrite Hperm, Hser. apply NoDup_seq.
  - intros Horder fuel nr t w' arrays Hrun.
    apply wait_cell_in_order in Hrun as (w1' & added' & Hsub' & ->); [|done].
    rewrite Hsub in Hsub'. by simplify_eq.
Qed.

(** Arrays of zeros, reported latest first, two at a time. *)
Lemma wait_cell_fetches_what_get_cell_fetches_example :
  wait_partitions (latest_first (V := list Q)) ∧
  ∃ arrays arrays0,
    (wait_cell latest_first zeros add_lists 3 return_n (Some 10%Q) fresh).2
    = Ok arrays ∧
    (get_cell zeros add_lists fresh).2 = Ok arrays0 ∧
    arrays ≡ₚ arrays0.
Proof.
  split; [exact latest_first_partitions|].
  destruct (wait_cell_fetches_what_get_cell_fetches
              latest_first zeros add_lists fresh)
    as (w0 & arrays0 & Hget & Hperm & _).
  destruct (wait_cell latest_first zeros add_lists 3 return_n (Some 10%Q) fresh)
    as [w' [arrays| |]] eqn:Hrun; [|by vm_compute in Hrun..].
  exists arrays, arrays0. split; [done|]. split; [by rewrite Hget|].
  by apply (Hperm latest_first_partitions 3 return_n (Some 10%Q) w' arrays).
Defined.

(** X4. The [ray.get] cell returns, for the sizes 0, 10, ..., 40 in this
    order, the array drawn for the size added to itself, and hands to
    [ray.get] the five ids of the [add_arrays] tasks only.  The dependencies
    cell returns the sum of the two arrays drawn and hands to [ray.get]
    only the id of the [add_arrays] task, the third of the three it
    submits. *)
Theorem array_cells_results {R V}
    (standard_normal : R → Z → V * R) (np_add : V → V → V)
    (w : World (R := R)) :
  (∃ w',
     get_cell standard_normal np_add w
     = (w', Ok ((λ a, np_add a a) <$>
                (draws standard_normal (ray w)
                   ((λ n, n * 10)%Z <$> range 5)).1)) ∧
     got_ids (new_calls w w') = seq (next_id w + 5) 5) ∧
  (∃ w',
     dependencies_cell standard_normal np_add w
     = (w', Ok (np_add (standard_normal (ray w) 20%Z).1
                  (standard_normal (standard_normal (ray w) 20%Z).2 20%Z).1)) ∧
     got_ids (new_calls w w') = [next_id w + 2]).
Proof.
  split.
  - destruct (get_cell_run standard_normal np_add w)
      as (w1 & added & w' & _ & Hget & Hres & _ & _ & log & Hlog & Hgot).
    exists w'. rewrite <- Hres. by rewrite (new_calls_app _ _ _ Hlog).
  - destruct (dependencies_cell_run standard_normal np_add w)
      as (w' & Hrun & _ & Hcalls).
    exists w'. split; [done|]. rewrite Hcalls. simpl. f_equal. lia.
Qed.

(** X5. The profiling cell computes what the [ray.get] cell computes from
    the same world and hands the same ids to [ray.get]; it leaves the
    directory with the timeline file added and nothing else changed, and
    so do the clean-up cell and the profiling cell run one after the
    other, whether or not an earlier timeline file was there. *)
Theorem timeline_cell_profiles_get_cell {R V}
    (standard_normal : R → Z → V * R) (np_add : V → V → V)
    (w : World (R := R)) :
  ∃ w' w0 arrays,
    timeline_cell standard_normal np_add w = (w', Ok arrays) ∧
    get_cell standard_normal np_add w = (w0, Ok arrays) ∧
    got_ids (new_calls w w') = got_ids (new_calls w w0) ∧
    files w0 = files w ∧
    files w' = {[timeline_file]} ∪ files w ∧
    files ((timeline_cleanup_cell;; timeline_cell standard_normal np_add) w).1
    = {[timeline_file]} ∪ files w.
Proof.
  destruct (timeline_cell_run standard_normal np_add w)
    as (w' & w0 & arrays & log & Hrun & Hget & Hfiles0 & Hfiles & Hlog & Hgot).
  exists w', w0, arrays. split_and!; try done.
  - by rewrite (new_calls_app _ _ _ Hlog).
  - unfold mbind, M_bind.
    destruct (timeline_cleanup_cell_run w) as (wc & -> & Hfilesc & _).
    destruct (timeline_cell_run standard_normal np_add wc)
      as (wc' & _ & arraysc & _ & -> & _ & _ & Hfilesc' & _).
    simpl. rewrite Hfilesc', Hfilesc.
    apply set_eq. intros f.
    rewrite !elem_of_union, elem_of_difference, !elem_of_singleton.
    destruct (decide (f = timeline_file)); tauto.
Qed.

(** ** Two at a time *)

Section BatchFacts.

Context {R V : Type}.
Variable wait_oracle :
  R → list (ObjectID V) → nat → option Q →
  list (ObjectID V) * list (ObjectID V) * R.

Abbreviation World := (World (R := R)).

Lemma half_of_two_more (k : nat) : (2 + k) / 2 = S (k / 2).
Proof.
  replace (2 + k) with (1 * 2 + k) by lia.
  rewrite Nat.div_add_l by lia. lia.
Qed.

Lemma parity_of_two_more (k : nat) : (2 + k) mod 2 = k mod 2.
Proof.
  replace (2 + k) with (k + 1 * 2) by lia. apply Nat.Div0.mod_add.
Qed.

Lemma arrays_wait_loop_batches t :
  wait_partitions wait_oracle → wait_exact wait_oracle →
  ∀ fuel waiting arrays (w : World),
    length waiting ≤ 2 * fuel →
    ∃ w' res log,
      arrays_wait_loop wait_oracle fuel return_n t waiting arrays w
      = (w', Ok res) ∧
      calls w' = calls w ++ log ∧
      wait_requests log
      = replicate (length waiting / 2) 2 ++ replicate (length waiting mod 2) 1.
Proof.
  intros Hpart Hexact.
  induction fuel as [|fuel IH]; intros waiting arrays w Hlen.
  - assert (waiting = []) as ->
      by (destruct waiting; [done|simpl in Hlen; lia]).
    rewrite arrays_wait_loop_done. exists w, arrays, [].
    by rewrite app_nil_r.
  - destruct (decide (0 < length waiting)) as [Hpos|Hzero]; last first.
    { assert (waiting = []) as ->
        by (destruct waiting; [done|simpl in Hzero; lia]).
      rewrite arrays_wait_loop_done. exists w, arrays, [].
      by rewrite app_nil_r. }
    destruct (return_n_bounds waiting Hpos) as [Hn1 Hn2].
    rewrite arrays_wait_loop_step by done. cbv zeta.
    specialize (Hpart (ray w) waiting (return_n waiting) t).
    specialize (Hexact (ray w) waiting (return_n waiting) t Hn2).
    destruct (wait_oracle (ray w) waiting (return_n waiting) t)
      as [[ready remaining] r].
    cbn [fst snd] in *.
    apply Permutation_length in Hpart. rewrite length_app in Hpart.
    match goal with |- context [arrays_wait_loop _ _ _ _ ?l ?a ?w1] =>
      destruct (IH l a w1) as (w' & res & log & -> & Hcalls & Hreq) end.
    { unfold return_n in Hexact. case_decide; lia. }
    cbn [calls] in Hcalls.
    exists w', res,
      ([RayWait (serial <$> waiting) (return_n waiting) t; TimeTime;
        Print "Returned {:3d} completed tasks. (elapsed time: {:6.3f})";
        RayGet (serial <$> ready)] ++
       replicate (length ready) (Print "{array.size}: {array}") ++ log).
    split; [done|]. split; [by rewrite Hcalls, <- !app_assoc|].
    cbn [wait_requests app].
    rewrite wait_requests_app, wait_requests_prints, Hreq. cbn [app].
    unfold return_n in *. case_decide.
    + replace (length waiting) with (2 + length remaining) by lia.
      rewrite (half_of_two_more (length remaining)).
      by rewrite (parity_of_two_more (length remaining)).
    + assert (length waiting = 1) as -> by lia.
      assert (length remaining = 0) as -> by lia. done.
Qed.

End BatchFacts.

Lemma submission_order_exact {V} : wait_exact (submission_order (V := V)).
Proof. intros r ids n t Hn. simpl. rewrite length_take. lia. Qed.

(** X6. When every [ray.wait] call splits its list and reports as many ids
    as it is asked for, the [return_n] loop on [n] ids exits after
    [n/2] calls asking for two ids followed, if [n] is odd, by one call
    asking for one. *)
Theorem return_n_loop_asks_two_then_one {R V}
    (wait_oracle : R → list (ObjectID V) → nat → option Q →
                   list (ObjectID V) * list (ObjectID V) * R)
    (t : option Q) (ids : list (ObjectID V)) (w : World (R := R)) (fuel : nat) :
  wait_partitions wait_oracle → wait_exact wait_oracle →
  length ids ≤ 2 * fuel →
  ∃ w' arrays,
    arrays_wait_loop wait_oracle fuel return_n t ids [] w = (w', Ok arrays) ∧
    wait_requests (new_calls w w')
    = replicate (length ids / 2) 2 ++ replicate (length ids mod 2) 1.
Proof.
  intros Hpart Hexact Hfuel.
  destruct (arrays_wait_loop_batches wait_oracle t Hpart Hexact fuel ids [] w)
    as (w' & arrays & log & Hrun & Hcalls & Hreq); [done|].
  exists w', arrays. split; [done|]. by rewrite (new_calls_app _ _ _ Hcalls).
Qed.

(** Five ids as in the lesson: the calls ask for 2, 2 and 1. *)
Lemma return_n_loop_asks_two_then_one_example :
  let ids := (λ n, mkObjectID n (Z.of_nat n)) <$> seq 0 5 in
  wait_partitions (submission_order (V := Z)) ∧
  wait_exact (submission_order (V := Z)) ∧
  length ids ≤ 2 * 3 ∧
  ∃ w' arrays,
    arrays_wait_loop submission_order 3 return_n (Some 10%Q) ids [] fresh
    = (w', Ok arrays) ∧
    wait_requests (new_calls fresh w') = [2; 2; 1].
Proof.
  intros ids.
  assert (length ids ≤ 2 * 3) as Hlen by (unfold ids; simpl; lia).
  split; [exact submission_order_partitions|].
  split; [exact submission_order_exact|]. split; [exact Hlen|].
  apply (return_n_loop_asks_two_then_one submission_order (Some 10%Q) ids
           fresh 3 submission_order_partitions submission_order_exact Hlen).
Defined.

(** ** More on the crossing point *)

Section CrossingMore.

Context {R : Type}.

Abbreviation World := (World (R := R)).

(** On any three lists the search loop stops within [len(ns)] increments,
    with an index or with [IndexError]. *)
Lemma crossing_loop_outcome ns local remote :
  ∀ fuel i (w : World),
    length ns - i ≤ fuel →
    (∃ j, crossing_loop fuel ns local remote i w = (w, Ok j)) ∨
    crossing_loop fuel ns local remote i w = (w, Raise IndexError).
Proof.
  induction fuel as [|fuel IH]; intros i w Hfuel.
  - left. exists i. by rewrite crossing_loop_stop by lia.
  - destruct (decide (i < length ns)) as [Hi|Hi]; last first.
    { left. exists i. by rewrite crossing_loop_stop by lia. }
    destruct (local !! i) as [l|] eqn:Hl; last first.
    { right. simpl. run_cell. rewrite decide_True by done. by rewrite Hl. }
    destruct (remote !! i) as [r|] eqn:Hr; last first.
    { right. simpl. run_cell. rewrite decide_True by done.
      rewrite Hl. simpl. by rewrite Hr. }
    destruct (Qlt_le_dec l r) as [Hlt|Hle].
    + rewrite (crossing_loop_next _ _ _ _ _ l r) by done. apply IH. lia.
    + left. exists i. by rewrite (crossing_loop_found _ _ _ _ _ l r).
Qed.

End CrossingMore.



(** X8. On any three lists, of equal lengths or not, the crossing-point
    cell terminates: the search loop needs at most [len(ns)] increments,
    and the cell either prints or raises [IndexError]; it makes no other
    call and leaves the directory alone. *)
Theorem crossing_cell_prints_or_raises {R}
    (ns : list Z) (local_durations remote_durations : list Q)
    (w : World (R := R)) :
  let run := crossing_cell ns local_durations remote_durations w in
  ((∃ v, run.2 = Ok v ∧
         new_calls w run.1
         = [Print "The Ray times are faster starting at n = {:d}, local = {:6.3f} vs. remote = {:6.3f}"]) ∨
   (run.2 = Raise IndexError ∧ new_calls w run.1 = [])) ∧
  files run.1 = files w.
Proof.
  assert (new_calls w w = []) as Hnone.
  { by rewrite (new_calls_app w w []) by by rewrite app_nil_r. }
  cbv zeta.
  remember (crossing_cell ns local_durations remote_durations w) as res
    eqn:Hres.
  unfold crossing_cell in Hres. unfold mbind at 1, M_bind at 1 in Hres.
  destruct (crossing_loop_outcome ns local_durations remote_durations
              (length ns) 0 w) as [[i Hloop]|Hloop]; [lia|..];
    rewrite Hloop in Hres; [|subst res; by split; [right|]].
  revert Hres. run_cell.
  destruct (ns !! i); simpl; [|intros ->; by split; [right|]].
  destruct (local_durations !! i); simpl; [|intros ->; by split; [right|]].
  destruct (remote_durations !! i); simpl; [|intros ->; by split; [right|]].
  intros ->. split; [|done]. left. eexists. split; [done|].
  by apply new_calls_app.
Qed.

(** ** More on the clean-up cell *)

(** X9. The clean-up cell removes the timeline file and no other file; it
    calls [os.remove] exactly when [os.path.isfile] finds the file; run
    again right after, it only tests for the file and changes nothing. *)
Theorem timeline_cleanup_removes_only_timeline_file {R} (w : World (R := R)) :
  ∃ w1 w2,
    timeline_cleanup_cell w = (w1, Ok ()) ∧
    files w1 = files w ∖ {[timeline_file]} ∧
    new_calls w w1
    = (if decide (timeline_file ∈ files w)
       then [OsPathIsfile timeline_file; OsRemove timeline_file]
       else [OsPathIsfile timeline_file]) ∧
    timeline_cleanup_cell w1 = (w2, Ok ()) ∧
    files w2 = files w1 ∧
    new_calls w1 w2 = [OsPathIsfile timeline_file].
Proof.
  assert (∀ w0 : World (R := R),
            timeline_file ∉ files w0 →
            timeline_cleanup_cell w0
            = (mkWorld (ray w0) (next_id w0) (files w0)
                 (calls w0 ++ [OsPathIsfile timeline_file]), Ok ()))
    as Habsent.
  { intros w0 Hout. unfold timeline_cleanup_cell. run_cell.
    by rewrite bool_decide_eq_false_2. }
  assert (∃ w1, timeline_cleanup_cell w = (w1, Ok ()) ∧
                files w1 = files w ∖ {[timeline_file]} ∧
                new_calls w w1
                = (if decide (timeline_file ∈ files w)
                   then [OsPathIsfile timeline_file; OsRemove timeline_file]
                   else [OsPathIsfile timeline_file]))
    as (w1 & Hrun & Hfiles & Hcalls).
  { destruct (decide (timeline_file ∈ files w)) as [Hin|Hout].
    - unfold timeline_cleanup_cell. run_cell.
      rewrite bool_decide_eq_true_2 by done. run_cell.
      rewrite decide_True by done.
      eexists. split; [reflexivity|]. split; [done|].
      apply new_calls_app. simpl. by rewrite <- app_assoc.
    - rewrite Habsent by done. eexists. split; [reflexivity|]. split.
      + simpl. apply set_eq. intros f.
        rewrite elem_of_difference, elem_of_singleton.
        split; [|tauto]. intros Hf. split; [done|]. by intros ->.
      + by apply new_calls_app. }
  assert (timeline_file ∉ files w1) as Hout.
  { rewrite Hfiles, elem_of_difference, elem_of_singleton. tauto. }
  exists w1. eexists. rewrite (Habsent w1 Hout).
  split_and!; try done. by apply new_calls_app.
Qed.

(** ** Squares, one after the other or as tasks *)

Section SquaresFacts.

Context {R : Type}.
Variable wait_oracle :
  R → list (ObjectID Z) → nat → option Q →
  list (ObjectID Z) * list (ObjectID Z) * R.

Abbreviation World := (World (R := R)).

Lemma slow_square_run (n : Z) (w : World) :
  (0 ≤ n ≤ sleep_max)%Z →
  slow_square n w
  = (mkWorld (ray w) (next_id w) (files w) (calls w ++ [TimeSleep n]),
     Ok (n * n)%Z).
Proof.
  intros Hn. unfold slow_square, time_sleep.
  rewrite decide_False by lia. by rewrite decide_False by lia.
Qed.

Lemma slow_square_rejects (n : Z) (w : World) :
  (n < 0 ∨ sleep_max < n)%Z →
  slow_square n w
  = (w, Raise (if decide (sleep_max < Z.abs n)%Z then OverflowError
               else ValueError)).
Proof.
  intros Hn. unfold slow_square, time_sleep.
  destruct (decide (sleep_max < Z.abs n)%Z) as [Hbig|Hsmall]; [done|].
  by rewrite decide_True by lia.
Qed.

Lemma mapM_slow_square (xs : list Z) :
  Forall (λ n, 0 ≤ n ≤ sleep_max)%Z xs →
  ∀ w : World,
    mapM slow_square xs w
    = (mkWorld (ray w) (next_id w) (files w) (calls w ++ (TimeSleep <$> xs)),
       Ok ((λ n, n * n)%Z <$> xs)).
Proof.
  induction 1 as [|x xs Hx Hxs IH]; intros w.
  - simpl. rewrite app_nil_r. by destruct w.
  - rewrite mapM_cons_run, slow_square_run by done.
    rewrite IH. simpl. by rewrite <- app_assoc.
Qed.

(** The list comprehension stops at the first duration that [time.sleep]
    rejects. *)
Lemma mapM_slow_square_rejects (ys : list Z) (n : Z) (zs : list Z) :
  Forall (λ n, 0 ≤ n ≤ sleep_max)%Z ys →
  (n < 0 ∨ sleep_max < n)%Z →
  ∀ w : World,
    mapM slow_square (ys ++ n :: zs) w
    = (mkWorld (ray w) (next_id w) (files w) (calls w ++ (TimeSleep <$> ys)),
       Raise (if decide (sleep_max < Z.abs n)%Z then OverflowError
              else ValueError)).
Proof.
  intros Hys Hn. induction Hys as [|y ys Hy Hys IH]; intros w.
  - cbn [app]. rewrite mapM_cons_run, slow_square_rejects by done.
    simpl. rewrite app_nil_r. by destruct w.
  - cbn [app]. rewrite mapM_cons_run, slow_square_run by done.
    rewrite IH. simpl. by rewrite <- app_assoc.
Qed.

Lemma mapM_slow_square_remote (xs : list Z) :
  ∀ w : World,
    ∃ ids,
      mapM slow_square_remote xs w
      = (mkWorld (ray w) (next_id w + length xs) (files w)
           (calls w ++
            (RayRemote "slow_square" <$> seq (next_id w) (length xs))),
         Ok ids) ∧
      serial <$> ids = seq (next_id w) (length xs) ∧
      result <$> ids = (λ n, n * n)%Z <$> xs.
Proof.
  induction xs as [|x xs IH]; intros w.
  - exists []. simpl. rewrite app_nil_r, Nat.add_0_r. by destruct w.
  - rewrite mapM_cons_run. unfold slow_square_remote at 1, remote.
    match goal with |- context [mapM _ xs ?w2] =>
      destruct (IH w2) as (ids & -> & Hser & Hres) end.
    cbn [ray next_id files calls] in *.
    eexists. split; [|split].
    + rewrite <- app_assoc. simpl. do 3 f_equal. lia.
    + rewrite fmap_cons, Hser. reflexivity.
    + by rewrite !fmap_cons, Hres.
Qed.

Lemma slept_sleeps (xs : list Z) : slept (TimeSleep <$> xs) = xs.
Proof.
  induction xs as [|x xs IH]; [done|].
  rewrite fmap_cons. cbn [slept]. by rewrite IH.
Qed.

Lemma slept_remotes (task : string) (l : list nat) :
  slept (RayRemote task <$> l) = [].
Proof. induction l; done. Qed.

(** The loop of the solution never makes the notebook sleep. *)
Lemma squares_wait_loop_slept fuel :
  ∀ waiting squares (w : World),
    ∃ log,
      calls (squares_wait_loop wait_oracle fuel waiting squares w).1
      = calls w ++ log ∧ slept log = [].
Proof.
  induction fuel as [|fuel IH]; intros waiting squares w.
  - exists []. rewrite app_nil_r. split; [|done].
    destruct (decide (0 < length waiting)) as [Hpos|Hzero].
    + by rewrite squares_wait_loop_fuel.
    + assert (waiting = []) as ->
        by (destruct waiting; [done|simpl in Hzero; lia]).
      by rewrite squares_wait_loop_done.
  - destruct (decide (0 < length waiting)) as [Hpos|Hzero]; last first.
    { assert (waiting = []) as ->
        by (destruct waiting; [done|simpl in Hzero; lia]).
      exists []. by rewrite app_nil_r, squares_wait_loop_done. }
    rewrite squares_wait_loop_step by done. cbv zeta.
    destruct (wait_oracle (ray w) waiting 1 None) as [[ready remaining] r].
    cbn [fst snd].
    match goal with |- context [squares_wait_loop _ _ ?l ?a ?w1] =>
      destruct (IH l a w1) as (log & Hlog & Hslept) end.
    cbn [calls] in Hlog.
    exists ([RayWait (serial <$> waiting) 1 None; RayGet (serial <$> ready)]
            ++ log).
    split; [by rewrite Hlog, <- app_assoc|done].
Qed.

End SquaresFacts.

(** X10. For every list of durations from 0 to less than [2**31] seconds,
    computing the squares one after the other with [slow_square] and
    submitting [slow_square.remote] for each and fetching all ids with one
    [ray.get] return the same list, the squares in the order of the list.
    The first makes the notebook sleep [n] seconds for each [n] of the
    list, in order; the second does not make the notebook sleep and uses
    one fresh id per element.  On a list with a duration that [time.sleep]
    rejects, negative or beyond [sleep_max], after durations it accepts,
    the sequential form returns no squares: it raises at that element,
    [ValueError] for a negative one that fits 64 bits of nanoseconds and
    [OverflowError] otherwise, having slept for the elements before it. *)
Theorem squares_sequential_and_remote_agree {R}
    (xs : list Z) (w : World (R := R)) :
  (Forall (λ n, 0 ≤ n < 2 ^ 31)%Z xs →
   ∃ w1 w2 ids w3,
     mapM slow_square xs w = (w1, Ok ((λ n, n * n)%Z <$> xs)) ∧
     slept (new_calls w w1) = xs ∧
     mapM slow_square_remote xs w = (w2, Ok ids) ∧
     ray_get ids w2 = (w3, Ok ((λ n, n * n)%Z <$> xs)) ∧
     slept (new_calls w w3) = [] ∧
     got_ids (new_calls w w3) = seq (next_id w) (length xs)) ∧
  (∀ ys n zs,
     xs = ys ++ n :: zs →
     Forall (λ n, 0 ≤ n < 2 ^ 31)%Z ys →
     (n < 0 ∨ sleep_max < n)%Z →
     ∃ w1,
       mapM slow_square xs w
       = (w1, Raise (if decide (sleep_max < Z.abs n)%Z then OverflowError
                     else ValueError)) ∧
       slept (new_calls w w1) = ys).
Proof.
  assert (∀ l, Forall (λ n, 0 ≤ n < 2 ^ 31)%Z l →
               Forall (λ n, 0 ≤ n ≤ sleep_max)%Z l) as Hfit.
  { intros l Hl. apply (Forall_impl _ _ _ Hl). unfold sleep_max. lia. }
  split.
  - intros Hxs%Hfit.
    destruct (mapM_slow_square_remote xs w) as (ids & Hrem & Hser & Hres).
    eexists _, _, ids, _. split; [by apply mapM_slow_square|].
    split.
    { erewrite new_calls_app; [|reflexivity]. apply slept_sleeps. }
    split; [exact Hrem|]. run_cell. rewrite Hres, Hser.
    split; [reflexivity|].
    rewrite (new_calls_app _ _
      ((RayRemote "slow_square" <$> seq (next_id w) (length xs)) ++
       [RayGet (seq (next_id w) (length xs))])).
    + rewrite slept_app, got_ids_app, slept_remotes, got_ids_remotes.
      simpl. by rewrite app_nil_r.
    + simpl. by rewrite <- app_assoc.
  - intros ys n zs -> Hys%Hfit Hn.
    eexists. split; [by apply mapM_slow_square_rejects|].
    erewrite new_calls_app; [|reflexivity]. apply slept_sleeps.
Qed.

(** Sleeps of 2, 0 and 5 seconds; then a list whose third duration is
    negative. *)
Lemma squares_sequential_and_remote_agree_example :
  Forall (λ n, 0 ≤ n < 2 ^ 31)%Z [2; 0; 5]%Z ∧
  (∃ w1 w2 ids w3,
     mapM slow_square [2; 0; 5]%Z fresh = (w1, Ok [4; 0; 25]%Z) ∧
     slept (new_calls fresh w1) = [2; 0; 5]%Z ∧
     mapM slow_square_remote [2; 0; 5]%Z fresh = (w2, Ok ids) ∧
     ray_get ids w2 = (w3, Ok [4; 0; 25]%Z) ∧
     slept (new_calls fresh w3) = [] ∧
     got_ids (new_calls fresh w3) = [0; 1; 2]) ∧
  [2; 0; -1; 5]%Z = [2; 0]%Z ++ (-1)%Z :: [5]%Z ∧
  Forall (λ n, 0 ≤ n < 2 ^ 31)%Z [2; 0]%Z ∧
  (-1 < 0 ∨ sleep_max < -1)%Z ∧
  (∃ w1,
     mapM slow_square [2; 0; -1; 5]%Z fresh = (w1, Raise ValueError) ∧
     slept (new_calls fresh w1) = [2; 0]%Z).
Proof.
  assert (Forall (λ n, 0 ≤ n < 2 ^ 31)%Z [2; 0; 5]%Z) as Hxs
    by (repeat constructor; lia).
  assert (Forall (λ n, 0 ≤ n < 2 ^ 31)%Z [2; 0]%Z) as Hys
    by (repeat constructor; lia).
  assert (-1 < 0 ∨ sleep_max < -1)%Z as Hn by (left; lia).
  split; [exact Hxs|].
  split;
    [exact (proj1 (squares_sequential_and_remote_agree [2; 0; 5]%Z fresh) Hxs)|].
  split; [reflexivity|]. split; [exact Hys|]. split; [exact Hn|].
  exact (proj2 (squares_sequential_and_remote_agree [2; 0; -1; 5]%Z fresh)
           [2; 0]%Z (-1)%Z [5]%Z eq_refl Hys Hn).
Defined.

(** X11. In Exercise 3 the notebook itself sleeps 0, 1, 2 and 3 seconds in
    the sequential cell, six seconds in all, and not at all in the two
    solution cells, whatever the framework answers and whether or not the
    [ray.wait] loop has exited: there the sleeping is left to the
    workers. *)
Theorem exercise3_sleeps_move_to_workers {R}
    (wait_oracle : R → list (ObjectID Z) → nat → option Q →
                   list (ObjectID Z) * list (ObjectID Z) * R)
    (fuel : nat) (w : World (R := R)) :
  slept (new_calls w (exercise3_cell w).1) = [0; 1; 2; 3]%Z ∧
  foldr Z.add 0%Z (slept (new_calls w (exercise3_cell w).1)) = 6%Z ∧
  slept (new_calls w (exercise3_get_cell w).1) = [] ∧
  slept (new_calls w (exercise3_wait_cell wait_oracle fuel w).1) = [].
Proof.
  assert (slept (new_calls w (exercise3_cell w).1) = [0; 1; 2; 3]%Z) as Hseq.
  { unfold exercise3_cell, slow_square. run_cell.
    erewrite new_calls_app; [|rewrite <- !app_assoc; reflexivity]. done. }
  split; [done|]. split; [by rewrite Hseq|]. split.
  - unfold exercise3_get_cell, slow_square_remote. run_cell.
    erewrite new_calls_app; [|rewrite <- !app_assoc; reflexivity]. done.
  - unfold exercise3_wait_cell, slow_square_remote. run_cell.
    match goal with |- context [squares_wait_loop _ _ ?l ?a ?w1] =>
      destruct (squares_wait_loop_slept wait_oracle fuel l a w1)
        as (log & Hlog & Hslept);
      destruct (squares_wait_loop wait_oracle fuel l a w1) as [w2 out] end.
    cbn [fst calls] in Hlog.
    assert (∃ log', calls (match out with
                           | Ok a => (mkWorld (ray w2) (next_id w2) (files w2)
                                        (calls w2 ++ [TimeTime]), Ok a)
                           | Raise e => (w2, Raise e)
                           | OutOfFuel => (w2, OutOfFuel)
                           end).1 = calls w ++ log' ∧ slept log' = [])
      as (log' & Hlog' & Hslept').
    { destruct out; cbn [fst calls]; rewrite Hlog, <- !app_assoc;
        (eexists; split; [reflexivity|]);
        rewrite ?slept_app, Hslept; done. }
    by rewrite (new_calls_app _ _ _ Hlog').
Qed.

(** ** What the printing loop prints *)

Section PrintFacts.

Context {R V : Type}.
Variable wait_oracle :
  R → list (ObjectID V) → nat → option Q →
  list (ObjectID V) * list (ObjectID V) * R.

Abbreviation World := (World (R := R)).

Lemma printed_app (s : string) (l1 l2 : list Call) :
  printed s (l1 ++ l2) = printed s l1 + printed s l2.
Proof.
  induction l1 as [|c l1 IH]; [done|].
  destruct c; simpl; rewrite ?IH; lia.
Qed.

Lemma printed_same (s : string) (n : nat) :
  printed s (replicate n (Print s)) = n.
Proof.
  induction n as [|n IH]; [done|]. simpl. rewrite decide_True by done.
  by rewrite IH.
Qed.

Lemma printed_other (s s' : string) (n : nat) :
  s' ≠ s → printed s (replicate n (Print s')) = 0.
Proof.
  intros Hne. induction n as [|n IH]; [done|]. simpl.
  by rewrite decide_False.
Qed.

Lemma arrays_wait_loop_prints fuel nr t :
  ∀ waiting arrays (w : World),
    ∃ log,
      calls (arrays_wait_loop wait_oracle fuel nr t waiting arrays w).1
      = calls w ++ log ∧
      printed "{array.size}: {array}" log = length (got_ids log) ∧
      ((∀ e, (arrays_wait_loop wait_oracle fuel nr t waiting arrays w).2
             ≠ Raise e) →
       printed "Returned {:3d} completed tasks. (elapsed time: {:6.3f})" log
       = length (wait_requests log)).
Proof.
  induction fuel as [|fuel IH]; intros waiting arrays w.
  - exists []. rewrite app_nil_r. split; [|done].
    destruct (decide (0 < length waiting)) as [Hpos|Hzero].
    + by rewrite arrays_wait_loop_fuel.
    + assert (waiting = []) as ->
        by (destruct waiting; [done|simpl in Hzero; lia]).
      by rewrite arrays_wait_loop_done.
  - destruct (decide (0 < length waiting)) as [Hpos|Hzero]; last first.
    { assert (waiting = []) as ->
        by (destruct waiting; [done|simpl in Hzero; lia]).
      exists []. by rewrite app_nil_r, arrays_wait_loop_done. }
    destruct (decide (length waiting < nr waiting)) as [Hlt|Hge].
    { rewrite arrays_wait_loop_raise by done.
      exists [RayWait (serial <$> waiting) (nr waiting) t].
      split; [done|]. split; [done|]. intros Hno. by destruct (Hno ValueError). }
    rewrite arrays_wait_loop_step by lia. cbv zeta.
    destruct (wait_oracle (ray w) waiting (nr waiting) t)
      as [[ready remaining] r].
    cbn [fst snd].
    match goal with |- context [arrays_wait_loop _ _ _ _ ?l ?a ?w1] =>
      destruct (IH l a w1) as (log & Hlog & Harr & Hret) end.
    cbn [calls] in Hlog.
    exists ([RayWait (serial <$> waiting) (nr waiting) t; TimeTime;
             Print "Returned {:3d} completed tasks. (elapsed time: {:6.3f})";
             RayGet (serial <$> ready)] ++
            replicate (length ready) (Print "{array.size}: {array}") ++ log).
    split; [by rewrite Hlog, <- !app_assoc|].
    split.
    + cbn [printed got_ids app]. rewrite decide_False by done.
      rewrite printed_app, printed_same, got_ids_app, got_ids_prints.
      rewrite !length_app, length_fmap, Harr. simpl. lia.
    + intros Hno. specialize (Hret Hno).
      cbn [printed wait_requests app]. rewrite decide_True by done.
      rewrite printed_app, printed_other by done.
      rewrite wait_requests_app, wait_requests_prints, Hret. simpl. lia.
Qed.

End PrintFacts.

(** X12. A [ray.wait] cell that completes has printed one line per array
    fetched, as many as ids were submitted when [ray.wait] splits the list
    it is given, and one "Returned" line per call of [ray.wait]. *)
Theorem wait_cell_prints_each_array_once {R V}
    (wait_oracle : R → list (ObjectID V) → nat → option Q →
                   list (ObjectID V) * list (ObjectID V) * R)
    fuel nr t (ids : list (ObjectID V)) (w w' : World (R := R)) arrays :
  wait_partitions wait_oracle →
  arrays_wait_cell wait_oracle fuel nr t ids w = (w', Ok arrays) →
  printed "{array.size}: {array}" (new_calls w w') = length ids ∧
  length arrays = length ids ∧
  printed "Returned {:3d} completed tasks. (elapsed time: {:6.3f})"
    (new_calls w w')
  = length (wait_requests (new_calls w w')).
Proof.
  intros Hpart Hcell.
  apply arrays_wait_cell_ok in Hcell as (w2 & Hloop & Hcalls).
  destruct (arrays_wait_loop_prints wait_oracle fuel nr t ids [] w)
    as (log & Hlog & Harr & Hret).
  rewrite Hloop in Hlog, Hret. cbn [fst snd] in *.
  specialize (Hret ltac:(done)).
  apply arrays_wait_loop_inv in Hloop
    as (got & rest & log0 & Hperm & Hlog0 & Hgot & _ & -> & ->); [|done].
  rewrite app_nil_r in Hperm.
  assert (log0 = log) as -> by (rewrite Hlog0 in Hlog; by simplify_list_eq).
  rewrite (new_calls_app _ _
    (log ++ [Print "\nall arrays: {arrays}"; TimeTime; Pd "Total time:"]))
    by by rewrite Hcalls, Hlog, <- app_assoc.
  rewrite !printed_app, wait_requests_app, Harr, Hret, Hgot.
  cbn [printed wait_requests]. rewrite !decide_False by done.
  rewrite app_nil_r, !length_fmap, Hperm. simpl.
  split_and!; [lia|by rewrite length_fmap|lia].
Qed.

(** Three tasks, reported latest first. *)
Lemma wait_cell_prints_each_array_once_example :
  let ids := [mkObjectID 0 10%Z; mkObjectID 1 20%Z; mkObjectID 2 30%Z] in
  wait_partitions (latest_first (V := Z)) ∧
  printed "{array.size}: {array}"
    (new_calls fresh (wait_one_cell latest_first 3 ids fresh).1) = 3.
Proof.
  intros ids. split; [exact latest_first_partitions|].
  refine (proj1 (wait_cell_prints_each_array_once latest_first 3 (λ _, 1)
                   (Some 10%Q) ids fresh
                   (wait_one_cell latest_first 3 ids fresh).1
                   [30; 20; 10]%Z latest_first_partitions _)).
  by vm_compute.
Defined.

(** ** Cells that call the framework, cells that do not *)

Section FrameworkCalls.

Context {R V : Type}.
Variable wait_oracle :
  R → list (ObjectID V) → nat → option Q →
  list (ObjectID V) * list (ObjectID V) * R.

Abbreviation World := (World (R := R)).

(** The first call of a [ray.wait] cell is [ray.wait] on all its ids. *)
Lemma arrays_wait_cell_head fuel nr t ids (w : World) :
  0 < fuel → 0 < length ids →
  head (new_calls w (arrays_wait_cell wait_oracle fuel nr t ids w).1)
  = Some (RayWait (serial <$> ids) (nr ids) t).
Proof.
  intros Hfuel Hids.
  remember (arrays_wait_cell wait_oracle fuel nr t ids w) as res eqn:Hres.
  unfold arrays_wait_cell in Hres. unfold mbind at 1, M_bind at 1 in Hres.
  destruct (arrays_wait_loop_frame wait_oracle fuel nr t ids [] w)
    as (_ & log & Hlog & Hhead).
  destruct (arrays_wait_loop wait_oracle fuel nr t ids [] w) as [w1 out].
  simpl in *. specialize (Hhead Hfuel Hids).
  destruct log as [|c log]; [done|]. simpl in Hhead. injection Hhead as ->.
  destruct out; revert Hres; run_cell; intros ->; simpl.
  - erewrite new_calls_app;
      [|simpl; rewrite Hlog, <- !app_assoc; simpl; reflexivity].
    done.
  - erewrite new_calls_app; [|exact Hlog]. done.
  - erewrite new_calls_app; [|exact Hlog]. done.
Qed.

(** What a [ray.wait] cell that completes has fetched and printed. *)
Lemma arrays_wait_cell_completed fuel nr t ids (w w' : World) arrays :
  wait_partitions wait_oracle →
  arrays_wait_cell wait_oracle fuel nr t ids w = (w', Ok arrays) →
  retrieved_once ids w w' arrays ∧
  printed "{array.size}: {array}" (new_calls w w') = length ids.
Proof.
  intros Hpart Hcell.
  apply arrays_wait_cell_ok in Hcell as (w2 & Hloop & Hcalls).
  destruct (arrays_wait_loop_prints wait_oracle fuel nr t ids [] w)
    as (log & Hlog & Harr & _).
  rewrite Hloop in Hlog. cbn [fst] in Hlog.
  apply arrays_wait_loop_inv in Hloop
    as (got & rest & log0 & Hperm & Hlog0 & Hgot & _ & -> & ->); [|done].
  rewrite app_nil_r in Hperm.
  assert (log0 = log) as -> by (rewrite Hlog0 in Hlog; by simplify_list_eq).
  unfold retrieved_once.
  rewrite (new_calls_app _ _
    (log ++ [Print "\nall arrays: {arrays}"; TimeTime; Pd "Total time:"]))
    by by rewrite Hcalls, Hlog, <- app_assoc.
  split.
  - exists got. split; [done|]. split; [|done].
    rewrite got_ids_app. simpl. by rewrite app_nil_r.
  - rewrite printed_app, Harr, Hgot. cbn [printed].
    rewrite decide_False by done. rewrite length_fmap, Hperm. simpl. lia.
Qed.

End FrameworkCalls.

Section Exercise3Calls.

Context {R : Type}.
Variable wait_oracle :
  R → list (ObjectID Z) → nat → option Q →
  list (ObjectID Z) * list (ObjectID Z) * R.

Abbreviation World := (World (R := R)).

(** The calls of the first solution of Exercise 3. *)
Lemma exercise3_get_cell_calls (w : World) :
  new_calls w (exercise3_get_cell w).1
  = [TimeTime] ++ (RayRemote "slow_square" <$> seq (next_id w) 4) ++
    [RayGet (seq (next_id w) 4); TimeTime].
Proof.
  unfold exercise3_get_cell, slow_square_remote. run_cell.
  erewrite new_calls_app; [|rewrite <- !app_assoc; reflexivity]. done.
Qed.

(** The calls of the second solution of Exercise 3. *)
Lemma exercise3_wait_cell_calls fuel (w : World) :
  ∃ log,
    new_calls w (exercise3_wait_cell wait_oracle fuel w).1
    = [TimeTime] ++ (RayRemote "slow_square" <$> seq (next_id w) 4) ++ log ∧
    existsb is_display_call log = false ∧
    (0 < fuel → head log = Some (RayWait (seq (next_id w) 4) 1 None)) ∧
    (wait_partitions wait_oracle →
     ∀ w' squares,
       exercise3_wait_cell wait_oracle fuel w = (w', Ok squares) →
       got_ids log ≡ₚ seq (next_id w) 4).
Proof.
  rewrite exercise3_wait_cell_eq.
  match goal with |- context [squares_wait_loop _ _ ?l ?a ?w1] =>
    destruct (squares_wait_loop_calls wait_oracle fuel l a w1)
      as (log & Hlog & Hquiet & Hhead);
    pose proof (λ Happ Hrel w2 out,
                  squares_wait_loop_inv wait_oracle (≡ₚ) fuel Happ Hrel
                    l a w1 w2 out) as Hinv;
    destruct (squares_wait_loop wait_oracle fuel l a w1) as [w2 out] end.
  cbn [fst calls] in Hlog.
  exists (log ++ match out with Ok _ => [TimeTime] | _ => [] end).
  split_and!.
  - apply new_calls_app.
    destruct out; cbn [fst calls]; rewrite Hlog, <- ?app_assoc;
      rewrite ?app_nil_r; done.
  - rewrite existsb_app, Hquiet. by destruct out.
  - intros Hfuel. specialize (Hhead Hfuel ltac:(simpl; lia)).
    destruct log as [|c log]; [done|]. done.
  - intros Hpart w' squares Hrun.
    destruct out as [res| |]; [|done..].
    destruct (Hinv ltac:(intros c x y Hxy; by rewrite Hxy) Hpart w2 (Ok res)
                eq_refl)
      as (got & rest & log0 & Hperm & Hlog0 & Hgot & _ & -> & _).
    rewrite app_nil_r in Hperm.
    assert (log0 = log) as -> by (rewrite Hlog0 in Hlog; by simplify_list_eq).
    rewrite got_ids_app, Hgot. simpl. rewrite app_nil_r, Hperm. done.
Qed.

End Exercise3Calls.

(** C5 (amended). The cells that wait for or fetch the results of tasks
    call into the framework.  A [ray.wait] cell run on a non-empty list of
    ids first calls [ray.wait] on that list; a run that completes, when
    [ray.wait] splits the list it is given, has passed every id to
    [ray.get] once and printed one line per id.  The first solution cell
    of Exercise 3 calls [slow_square.remote] four times and [ray.get] once,
    on the four ids; the second calls [slow_square.remote] four times and
    then [ray.wait] on the four ids, and a run that completes has passed
    each of them to [ray.get]; neither prints.  Other cells compute
    locally and never call the framework: the sequential cell of
    Exercise 3 (its squares are [n*n]), the [noop] baseline (its list is
    [range(trials)]), the crossing-point search (whose only calls are to
    [print]) and the clean-up of the timeline file. *)
Theorem cells_framework_or_local :
  (∀ R V (wait_oracle : R → list (ObjectID V) → nat → option Q →
                        list (ObjectID V) * list (ObjectID V) * R)
     fuel nr t ids,
     0 < fuel → 0 < length ids →
     calls_into_framework (arrays_wait_cell wait_oracle fuel nr t ids) ∧
     ∀ w, head (new_calls w (arrays_wait_cell wait_oracle fuel nr t ids w).1)
          = Some (RayWait (serial <$> ids) (nr ids) t)) ∧
  (∀ R V (wait_oracle : R → list (ObjectID V) → nat → option Q →
                        list (ObjectID V) * list (ObjectID V) * R)
     fuel nr t ids (w w' : World (R := R)) arrays,
     wait_partitions wait_oracle →
     arrays_wait_cell wait_oracle fuel nr t ids w = (w', Ok arrays) →
     retrieved_once ids w w' arrays ∧
     printed "{array.size}: {array}" (new_calls w w') = length ids) ∧
  (∀ R,
     calls_into_framework (exercise3_get_cell (R := R)) ∧
     silent_cell (exercise3_get_cell (R := R)) ∧
     ∀ w, new_calls w (exercise3_get_cell (R := R) w).1
          = [TimeTime] ++ (RayRemote "slow_square" <$> seq (next_id w) 4) ++
            [RayGet (seq (next_id w) 4); TimeTime]) ∧
  (∀ R (wait_oracle : R → list (ObjectID Z) → nat → option Q →
                      list (ObjectID Z) * list (ObjectID Z) * R) fuel,
     calls_into_framework (exercise3_wait_cell wait_oracle fuel) ∧
     silent_cell (exercise3_wait_cell wait_oracle fuel) ∧
     ∀ w, ∃ log,
       new_calls w (exercise3_wait_cell wait_oracle fuel w).1
       = [TimeTime] ++ (RayRemote "slow_square" <$> seq (next_id w) 4) ++ log ∧
       (0 < fuel → head log = Some (RayWait (seq (next_id w) 4) 1 None)) ∧
       (wait_partitions wait_oracle →
        ∀ w' squares,
          exercise3_wait_cell wait_oracle fuel w = (w', Ok squares) →
          got_ids log ≡ₚ seq (next_id w) 4)) ∧
  (∀ R, local_cell (exercise3_cell (R := R)) ∧
        ∀ w, (exercise3_cell (R := R) w).2
             = Ok ((λ n, n * n)%Z <$> range 4)) ∧
  (∀ R, local_cell (noop_cell (R := R)) ∧
        ∀ w, (noop_cell (R := R) w).2 = Ok (range trials)) ∧
  (∀ R ns local_durations remote_durations,
     local_cell (crossing_cell (R := R) ns local_durations remote_durations) ∧
     ∀ w, forallb is_display_call
            (new_calls w
               (crossing_cell (R := R) ns local_durations remote_durations w).1)
          = true) ∧
  (∀ R, local_cell (timeline_cleanup_cell (R := R))).
Proof.
  split_and!.
  - intros R V wait_oracle fuel nr t ids Hfuel Hids. split; intros w.
    + by apply arrays_wait_cell_frame.
    + by apply arrays_wait_cell_head.
  - intros R V wait_oracle fuel nr t ids w w' arrays.
    apply arrays_wait_cell_completed.
  - intros R. split_and!; intros w.
    + by destruct (exercise3_get_cell_run w) as (w' & -> & _ & ?).
    + by rewrite exercise3_get_cell_calls.
    + apply exercise3_get_cell_calls.
  - intros R wait_oracle fuel. split_and!; intros w.
    + apply exercise3_wait_cell_frame.
    + destruct (exercise3_wait_cell_calls wait_oracle fuel w)
        as (log & -> & Hquiet & _).
      by rewrite !existsb_app, Hquiet.
    + destruct (exercise3_wait_cell_calls wait_oracle fuel w)
        as (log & Hlog & _ & Hhead & Hgot).
      by exists log.
  - intros R. split; intros w;
      by destruct (exercise3_cell_run w) as (w' & -> & _ & ?).
  - intros R. split; intros w;
      by destruct (noop_cell_run w) as (w' & -> & _ & ?).
  - intros R ns local_durations remote_durations.
    split; intros w; apply crossing_cell_frame.
  - intros R w. by destruct (timeline_cleanup_cell_run w) as (w' & -> & _ & ?).
Qed.

(** Five ids, two at a time, for ten seconds at most. *)
Lemma cells_framework_or_local_example :
  let ids := (λ n, mkObjectID n (Z.of_nat n)) <$> seq 0 5 in
  0 < 3 ∧ 0 < length ids ∧
  calls_into_framework (wait_two_cell submission_order 3 ids) ∧
  head (new_calls fresh (wait_two_cell submission_order 3 ids fresh).1)
  = Some (RayWait [0; 1; 2; 3; 4] 2 (Some 10%Q)).
Proof.
  intros ids.
  assert (0 < 3) as Hfuel by lia.
  assert (0 < length ids) as Hids by (unfold ids; simpl; lia).
  split; [exact Hfuel|]. split; [exact Hids|].
  destruct (proj1 cells_framework_or_local unit Z submission_order 3 return_n
              (Some 10%Q) ids Hfuel Hids) as [Hcalls Hhead].
  split; [exact Hcalls|]. exact (Hhead fresh).
Defined.

(** C5 fails as stated: on measurements that cross at the sixth array
    size, the crossing-point cell finds and prints [n = 1000] by its own
    search, and the only call it makes is [print]. *)
Lemma crossing_cell_makes_no_framework_call :
  let local_durations := replicate 5 1%Q ++ replicate 10 3%Q in
  let remote_durations := replicate 15 2%Q in
  crossing_cell ns local_durations remote_durations fresh
  = (mkWorld () 0 ∅
       [Print "The Ray times are faster starting at n = {:d}, local = {:6.3f} vs. remote = {:6.3f}"],
     Ok (1000%Z, 3%Q, 2%Q)) ∧
  ¬ calls_into_framework
      (crossing_cell (R := unit) ns local_durations remote_durations).
Proof.
  intros l r. split; [reflexivity|].
  intros Hcalls. specialize (Hcalls fresh). discriminate Hcalls.
Qed.
